(** * Voice-Agent relay: a shallow embedding of [main.py]

    The relay bridges a Twilio media stream and a Deepgram speech agent.
    This development embeds the parts of [main.py] that carry logic:

    - [twilio_receiver] with its chunk buffer (lines 225-253),
    - [_extract_transcript_from_deepgram], [handle_barge_in],
      [handle_text_message] (lines 88-188),
    - [rag_retrieve] (lines 64-83),
    - [sts_sender], [sts_receiver] (lines 193-220) and their interleaving
      under [asyncio.gather] (lines 343-347),
    - the endpoints [make_call] and [voice_start] (lines 261-325),
    - [trigger_call] of [trigger_call.py].

    Python values are modelled as they are at run time: a [str] is a
    sequence of code points, [bytes] a list of bytes, a decoded JSON
    document a tree of dicts, lists and scalars.  Library calls whose code
    is not part of the repository ([json.loads], [base64.b64decode],
    [base64.b64encode], the embedding and the index services) are Section
    variables. *)

From Stdlib Require Import String Ascii.
From Stdlib Require Import List ZArith NArith Lia Bool Arith.
From Stdlib Require Import Strings.Byte.
From Stdlib Require Import Floats.SpecFloat.
From Equations Require Import Equations.
Import ListNotations.

Set Implicit Arguments.
Set Warnings "-register-all".

(* ===================================================================== *)
(** ** Python strings *)
(* ===================================================================== *)

(** A Python [str] is a sequence of Unicode code points. *)
Definition pystr := list N.

(** ASCII literals of the source, as code points. *)
Fixpoint py (s : string) : pystr :=
  match s with
  | EmptyString => []
  | String a r => N_of_ascii a :: py r
  end.

Definition pystr_eqb (a b : pystr) : bool :=
  if list_eq_dec N.eq_dec a b then true else false.

(** [str.isspace] for one code point, as CPython's [Py_UNICODE_ISSPACE]:
    the characters [str.strip()] removes. *)
Definition isspace (c : N) : bool :=
  ((9 <=? c) && (c <=? 13)
   || (28 <=? c) && (c <=? 32)
   || (c =? 133) || (c =? 160) || (c =? 5760)
   || (8192 <=? c) && (c <=? 8202)
   || (c =? 8232) || (c =? 8233) || (c =? 8239) || (c =? 8287)
   || (c =? 12288))%N.

Fixpoint lstrip (s : pystr) : pystr :=
  match s with
  | [] => []
  | c :: r => if isspace c then lstrip r else s
  end.

Definition rstrip (s : pystr) : pystr := rev (lstrip (rev s)).

(** [s.strip()] *)
Definition strip (s : pystr) : pystr := rstrip (lstrip s).

(** [sep.join(parts)] on strings. *)
Fixpoint str_join (sep : pystr) (parts : list pystr) : pystr :=
  match parts with
  | [] => []
  | [p] => p
  | p :: rest => p ++ sep ++ str_join sep rest
  end.

(** [needle in hay] on strings. *)
Definition substring (needle hay : pystr) : Prop :=
  exists pre post, hay = pre ++ needle ++ post.

(* ===================================================================== *)
(** ** Python values produced by [json.loads] *)
(* ===================================================================== *)

Inductive json : Type :=
| JNull
| JBool (b : bool)
| JInt (z : Z)
| JFloat (f : spec_float)
| JStr (s : pystr)
| JArr (items : list json)
| JObj (fields : list (pystr * json)).

(** Truth value of a Python object, as [bool(x)], [if x] and [or] see it. *)
Definition truthy (v : json) : bool :=
  match v with
  | JNull => false
  | JBool b => b
  | JInt z => negb (Z.eqb z 0)
  | JFloat (S754_zero _) => false
  | JFloat _ => true
  | JStr s => match s with [] => false | _ => true end
  | JArr l => match l with [] => false | _ => true end
  | JObj l => match l with [] => false | _ => true end
  end.

(** [a or b] *)
Definition py_or (a b : json) : json := if truthy a then a else b.

(** Exceptions, by the class Python raises. *)
Inductive exn : Type :=
| KeyError
| TypeError
| AttributeError
| IndexError
| ValueError        (* json.JSONDecodeError and binascii.Error are ValueErrors *)
| ServiceError.     (* an exception raised by an external service call *)

Inductive result (A : Type) : Type :=
| Ok (a : A)
| Raise (e : exn).
Arguments Ok {A} a.
Arguments Raise {A} e.

(** Lookup in a dict: the value bound to [k], if any. *)
Fixpoint lookup (k : pystr) (fields : list (pystr * json)) : option json :=
  match fields with
  | [] => None
  | (k', v) :: r => if pystr_eqb k k' then Some v else lookup k r
  end.

(** [d[k]] with a string key. *)
Definition subscript (d : json) (k : pystr) : result json :=
  match d with
  | JObj fields =>
      match lookup k fields with
      | Some v => Ok v
      | None => Raise KeyError
      end
  | _ => Raise TypeError
  end.

(** [d.get(k)]: only a dict has [get]; a missing key gives [None]. *)
Definition get (d : json) (k : pystr) : result json :=
  match d with
  | JObj fields =>
      match lookup k fields with
      | Some v => Ok v
      | None => Ok JNull
      end
  | _ => Raise AttributeError
  end.

(** [k in d] as the source uses it, on a value that is known to be a dict. *)
Definition has_key (k : pystr) (fields : list (pystr * json)) : bool :=
  match lookup k fields with Some _ => true | None => false end.

(** [x == "literal"] *)
Definition eq_str (v : json) (s : pystr) : bool :=
  match v with
  | JStr t => pystr_eqb t s
  | _ => false
  end.

(** [x[0]] *)
Definition subscript0 (v : json) : result json :=
  match v with
  | JArr (x :: _) => Ok x
  | JArr [] => Raise IndexError
  | JStr (c :: _) => Ok (JStr [c])
  | JStr [] => Raise IndexError
  | JObj _ => Raise KeyError
  | _ => Raise TypeError
  end.

(** [x.strip()]: only a string has [strip]. *)
Definition py_strip (v : json) : result pystr :=
  match v with
  | JStr s => Ok (strip s)
  | _ => Raise AttributeError
  end.

(* ===================================================================== *)
(** ** The chunk buffer of [twilio_receiver] *)
(* ===================================================================== *)

(** [BUFFER_SIZE = 160 * 20] *)
Definition BUFFER_SIZE : nat := 160 * 20.

Global Opaque BUFFER_SIZE.

(** Lines 247-249:
<<
    while len(inbuffer) >= BUFFER_SIZE:
        audio_queue.put_nowait(inbuffer[:BUFFER_SIZE])
        inbuffer = inbuffer[BUFFER_SIZE:]
>>
    The loop returns the remaining buffer and the queue with the frames
    appended at its tail. *)
Equations? drain (inbuffer : list byte) (audio_queue : list (list byte))
  : list byte * list (list byte) by wf (length inbuffer) lt :=
  drain inbuffer audio_queue with le_lt_dec BUFFER_SIZE (length inbuffer) => {
    | left _ => drain (skipn BUFFER_SIZE inbuffer)
                      (audio_queue ++ [firstn BUFFER_SIZE inbuffer]);
    | right _ => (inbuffer, audio_queue) }.
Proof.
  rewrite length_skipn.
  assert (0 < BUFFER_SIZE) by (vm_compute; lia).
  lia.
Qed.

(* ===================================================================== *)
(** ** [twilio_receiver] *)
(* ===================================================================== *)

(** What the relay prints. *)
Inductive log_line : Type :=
| LogTwilioStop                     (* print("Twilio STOP") *)
| LogTwilioError (e : exn)          (* print("Twilio error:", e) *)
| LogDeepgram (decoded : json)      (* print("Deepgram:", decoded) *)
| LogPartial (transcript : pystr)   (* print("Partial:", transcript) *)
| LogFinal (transcript : pystr)     (* print("Final transcript:", transcript) *)
| LogRagError (e : exn)             (* print("RAG error:", e) *)
| LogSending.                       (* print("Sending response.create to Deepgram...") *)

(** The local buffer of [twilio_receiver], the two queues it writes and
    its output. *)
Record receiver_state : Type := {
  inbuffer : list byte;
  audio_queue : list (list byte);
  streamsid_queue : list json;
  printed : list log_line
}.

Definition receiver_init : receiver_state :=
  {| inbuffer := []; audio_queue := []; streamsid_queue := []; printed := [] |}.

Inductive control : Type := Continue | Break.

Definition set_buffers (st : receiver_state) (bq : list byte * list (list byte))
  : receiver_state :=
  {| inbuffer := fst bq; audio_queue := snd bq;
     streamsid_queue := streamsid_queue st; printed := printed st |}.

Definition put_streamsid (st : receiver_state) (sid : json) : receiver_state :=
  {| inbuffer := inbuffer st; audio_queue := audio_queue st;
     streamsid_queue := streamsid_queue st ++ [sid]; printed := printed st |}.

Definition extend_inbuffer (st : receiver_state) (chunk : list byte) : receiver_state :=
  {| inbuffer := inbuffer st ++ chunk; audio_queue := audio_queue st;
     streamsid_queue := streamsid_queue st; printed := printed st |}.

Definition print_line (st : receiver_state) (l : log_line) : receiver_state :=
  {| inbuffer := inbuffer st; audio_queue := audio_queue st;
     streamsid_queue := streamsid_queue st; printed := printed st ++ [l] |}.

(** Sequencing of computations that may raise. *)
Definition rbind {A B} (r : result A) (k : A -> result B) : result B :=
  match r with
  | Ok a => k a
  | Raise e => Raise e
  end.

Notation "x <~ r ;; k" := (rbind r (fun x => k))
  (at level 61, r at next level, right associativity).

Section TwilioReceiver.

(** [json.loads]: [None] when it raises [JSONDecodeError]. *)
Variable json_loads : pystr -> option json.
(** [base64.b64decode] on a string: [None] when it raises. *)
Variable b64decode : pystr -> option (list byte).

Definition loads (message : pystr) : result json :=
  match json_loads message with
  | Some data => Ok data
  | None => Raise ValueError
  end.

(** [base64.b64decode(payload)]: anything but a string is a [TypeError]. *)
Definition decode_payload (payload : json) : result (list byte) :=
  match payload with
  | JStr s =>
      match b64decode s with
      | Some chunk => Ok chunk
      | None => Raise ValueError
      end
  | _ => Raise TypeError
  end.

(** The body of the [try] (lines 231-249) for one message. *)
Definition twilio_try (message : pystr) (st : receiver_state)
  : result (receiver_state * control) :=
  data <~ loads message ;;
  event <~ subscript data (py "event") ;;
  if eq_str event (py "start") then
    start <~ subscript data (py "start") ;;
    streamsid <~ subscript start (py "streamSid") ;;
    let st1 := put_streamsid st streamsid in
    Ok (set_buffers st1 (drain (inbuffer st1) (audio_queue st1)), Continue)
  else if eq_str event (py "media") then
    media <~ subscript data (py "media") ;;
    payload <~ subscript media (py "payload") ;;
    chunk <~ decode_payload payload ;;
    let st1 := extend_inbuffer st chunk in
    Ok (set_buffers st1 (drain (inbuffer st1) (audio_queue st1)), Continue)
  else if eq_str event (py "stop") then
    Ok (print_line st LogTwilioStop, Break)
  else
    Ok (set_buffers st (drain (inbuffer st) (audio_queue st)), Continue).

(** One iteration of the [async for], with the [except] clause
    (lines 251-253): every exception is printed and ends the loop. *)
Definition twilio_step (message : pystr) (st : receiver_state)
  : receiver_state * control :=
  match twilio_try message st with
  | Ok r => r
  | Raise e => (print_line st (LogTwilioError e), Break)
  end.

(** The loop over the text messages the transport delivers; the list ends
    where the transport closes. *)
Fixpoint twilio_receiver (messages : list pystr) (st : receiver_state)
  : receiver_state :=
  match messages with
  | [] => st
  | message :: rest =>
      match twilio_step message st with
      | (st', Continue) => twilio_receiver rest st'
      | (st', Break) => st'
      end
  end.

(** [message] is a well-formed media event carrying [chunk]:
    [{"event": "media", "media": {"payload": <base64 of chunk>}}]. *)
Definition media_event (message : pystr) (chunk : list byte) : Prop :=
  exists data media payload,
    json_loads message = Some data /\
    subscript data (py "event") = Ok (JStr (py "media")) /\
    subscript data (py "media") = Ok media /\
    subscript media (py "payload") = Ok (JStr payload) /\
    b64decode payload = Some chunk.

(** [message] is a well-formed start event carrying [sid]. *)
Definition start_event (message : pystr) (sid : json) : Prop :=
  exists data start,
    json_loads message = Some data /\
    subscript data (py "event") = Ok (JStr (py "start")) /\
    subscript data (py "start") = Ok start /\
    subscript start (py "streamSid") = Ok sid.

(** [message] is a stop event. *)
Definition stop_event (message : pystr) : Prop :=
  exists data,
    json_loads message = Some data /\
    subscript data (py "event") = Ok (JStr (py "stop")).

End TwilioReceiver.

(* ===================================================================== *)
(** ** Effects of the agent side *)
(* ===================================================================== *)

(** [emb.data[0].embedding] *)
Definition vector := list spec_float.

(** What a coroutine does to the outside, in order. *)
Inductive event : Type :=
| TwilioSend (msg : json)            (* await twilio_ws.send_text(json.dumps(msg)) *)
| StsSend (msg : json)               (* await sts_ws.send(json.dumps(msg)) *)
| StsSendAudio (chunk : list byte)   (* await sts_ws.send(chunk) *)
| EmbeddingsCreate (input : pystr)   (* openai_client.embeddings.create(input=...) *)
| IndexQuery (v : vector) (top_k : nat)  (* index.query(vector=v, top_k=...) *)
| Print (l : log_line).

(** A computation: the events it performed, then its value or the
    exception it raised. *)
Definition M (A : Type) : Type := list event * result A.

Definition ret {A} (a : A) : M A := ([], Ok a).

Definition bind {A B} (m : M A) (k : A -> M B) : M B :=
  match m with
  | (t, Ok a) => let (t', r) := k a in (t ++ t', r)
  | (t, Raise e) => (t, Raise e)
  end.

Definition emit (e : event) : M unit := ([e], Ok tt).

Definition lift {A} (r : result A) : M A := ([], r).

(** [try: m  except Exception as e: handler e] *)
Definition try_except {A} (m : M A) (handler : exn -> M A) : M A :=
  match m with
  | (t, Ok a) => (t, Ok a)
  | (t, Raise e) => let (t', r) := handler e in (t ++ t', r)
  end.

Notation "x <- m ;;; k" := (bind m (fun x => k))
  (at level 61, m at next level, right associativity).
Notation "m ;;; k" := (bind m (fun _ => k))
  (at level 61, right associativity).

Definition events {A} (m : M A) : list event := fst m.
Definition outcome {A} (m : M A) : result A := snd m.

(* ===================================================================== *)
(** ** [rag_retrieve] *)
(* ===================================================================== *)

(** One entry of [res.matches]; [metadata] is [None] or a dict. *)
Record Match : Type := { metadata : option (list (pystr * json)) }.

Definition NO_CONTEXT : pystr := py "No relevant context.".

Definition newline : pystr := [10%N].

(** Lines 78-81: the answers of the matches that carry one. *)
Fixpoint collect_contexts (matches : list Match) : list json :=
  match matches with
  | [] => []
  | m :: rest =>
      match metadata m with
      | Some ((_ :: _) as fields) =>
          match lookup (py "answer") fields with
          | Some answer => answer :: collect_contexts rest
          | None => collect_contexts rest
          end
      | _ => collect_contexts rest
      end
  end.

(** The items of a list as strings; [str.join] raises [TypeError] on
    anything else. *)
Fixpoint as_strings (items : list json) : result (list pystr) :=
  match items with
  | [] => Ok []
  | JStr s :: rest => r <~ as_strings rest ;; Ok (s :: r)
  | _ :: _ => Raise TypeError
  end.

(** ["\n".join(contexts)] *)
Definition join_contexts (contexts : list json) : result pystr :=
  parts <~ as_strings contexts ;; Ok (str_join newline parts).

Section Agent.

(** The embedding request and the read of [emb.data[0].embedding];
    [None] when either raises. *)
Variable embeddings_create : pystr -> option vector.
(** [index.query(vector, top_k, include_metadata=True).matches];
    [None] when the service raises. *)
Variable index_query : vector -> nat -> option (list Match).
Variable json_loads : pystr -> option json.
(** [base64.b64encode(raw).decode("utf-8")] *)
Variable b64encode : list byte -> pystr.

Definition service {A} (r : option A) : M A :=
  match r with
  | Some a => ret a
  | None => lift (Raise ServiceError)
  end.

(** Lines 64-83. *)
Definition rag_retrieve (query : pystr) : M pystr :=
  emit (EmbeddingsCreate query) ;;;
  v <- service (embeddings_create query) ;;;
  emit (IndexQuery v 3) ;;;
  matches <- service (index_query v 3) ;;;
  let contexts := collect_contexts matches in
  match contexts with
  | [] => ret NO_CONTEXT
  | _ :: _ => lift (join_contexts contexts)
  end.

(** Lines 88-107.  [decoded.get] on line 91 raises unless [decoded] is a
    dict, so the rest of the body reads a dict. *)
Definition _extract_transcript_from_deepgram (decoded : json)
  : result (pystr * bool * json) :=
  rid1 <~ get decoded (py "response_id") ;;
  rid2 <~ get decoded (py "id") ;;
  let response_id := py_or rid1 rid2 in
  t1 <~ get decoded (py "transcript") ;;
  t2 <~ get decoded (py "text") ;;
  let transcript := py_or t1 (py_or t2 (JStr [])) in
  match decoded with
  | JObj fields =>
      f <~ get decoded (py "is_final") ;;
      let is_final := if has_key (py "is_final") fields then f else JBool false in
      if negb (truthy transcript) && has_key (py "alternatives") fields then
        alts <~ get decoded (py "alternatives") ;;
        if truthy alts then
          alt0 <~ subscript0 alts ;;
          a1 <~ get alt0 (py "transcript") ;;
          a2 <~ get alt0 (py "text") ;;
          let transcript := py_or a1 (py_or a2 (JStr [])) in
          f1 <~ get alt0 (py "final") ;;
          f2 <~ get alt0 (py "is_final") ;;
          let is_final := if truthy (py_or f1 f2) then JBool true else is_final in
          text <~ py_strip transcript ;;
          Ok (text, truthy is_final, response_id)
        else
          text <~ py_strip transcript ;;
          Ok (text, truthy is_final, response_id)
      else
        text <~ py_strip transcript ;;
        Ok (text, truthy is_final, response_id)
  | _ => Raise AttributeError
  end.

(** [{"event": "clear", "streamSid": streamsid}] *)
Definition clear_message (streamsid : json) : json :=
  JObj [(py "event", JStr (py "clear")); (py "streamSid", streamsid)].

(** Lines 112-117. *)
Definition handle_barge_in (decoded : json) (streamsid : json) : M unit :=
  ty <- lift (get decoded (py "type")) ;;;
  if eq_str ty (py "UserStartedSpeaking")
  then emit (TwilioSend (clear_message streamsid))
  else ret tt.

(** The f-string of lines 145-179, cut at its two holes.  The curly
    quotes of the source are the code points 8220, 8221 and 8217. *)
Definition lines (ls : list pystr) : pystr := str_join newline ls.

Definition prompt_head : pystr :=
  lines [
    [];
    py "You are Skillorea AI, the official voice assistant of the Skillorea educational platform.";
    [];
    py "Your purpose:";
    py "- Introduce and promote the Skillorea.";
    py "- Explain features, benefits, courses, and offerings of Skillorea.";
    py "- Answer user questions ONLY using the information provided in the retrieved context.";
    py "- Do NOT create information that is not present in the context.";
    py "- Do NOT use external knowledge outside the context.";
    py "- If the user asks something not present in the context, politely say:";
    py "  " ++ [8220%N] ++ py "I don" ++ [8217%N]
      ++ py "t have that information in my Skillorea knowledge base." ++ [8221%N];
    [];
    py "Speaking Style:";
    py "- Friendly, simple, and clear.";
    py "- Sound like an app promoter, not a teacher.";
    py "- Keep answers short and direct unless the user asks for details.";
    py "- If the user seems confused, re-explain the feature simply.";
    [];
    py "Rules:";
    py "1. ALWAYS base your answer only on the RAG context.";
    py "2. NEVER invent or guess.";
    py "3. NEVER answer using general knowledge.";
    py "4. If context is missing or unrelated, say you don" ++ [8217%N]
      ++ py "t have that information.";
    py "5. Your identity is ONLY " ++ [8220%N] ++ py "Skillorea AI," ++ [8221%N]
      ++ py " not a tutor or medical/technical expert.";
    [];
    py "User Question:";
    []
  ].

Definition prompt_middle : pystr :=
  lines [
    [];
    [];
    py "Retrieved Context (your ONLY knowledge):";
    []
  ].

Definition prompt_tail : pystr :=
  lines [
    [];
    [];
    py "Using ONLY the retrieved context, respond as the Skillorea app" ++ [8217%N]
      ++ py "s voice assistant.";
    py "If the context does not contain the answer, clearly state that the information is not available.";
    [];
    []
  ].

(** [instructions] as line 145 binds it. *)
Definition prompt (transcript context : pystr) : pystr :=
  prompt_head ++ transcript ++ prompt_middle ++ context ++ prompt_tail.

(** Lines 181-185. *)
Definition response_create (response_id : json) (instructions : pystr) : json :=
  JObj [(py "type", JStr (py "response.create"));
        (py "response_id", response_id);
        (py "instructions", JStr (strip instructions))].

(** Lines 136-141. *)
Definition retrieve_or_fallback (transcript : pystr) : M pystr :=
  try_except (rag_retrieve transcript)
             (fun e => emit (Print (LogRagError e)) ;;; ret NO_CONTEXT).

(** The context lines 137-141 bind: the retrieved one, or the sentinel
    when [rag_retrieve] raised. *)
Definition context_of (transcript : pystr) : pystr :=
  match outcome (rag_retrieve transcript) with
  | Ok context => context
  | Raise _ => NO_CONTEXT
  end.

(** Lines 125-188: what [handle_text_message] does after the barge-in
    handler has returned. *)
Definition turn_controller (decoded : json) : M unit :=
  extracted <- lift (_extract_transcript_from_deepgram decoded) ;;;
  let '(transcript, is_final, response_id) := extracted in
  match transcript with
  | [] => ret tt
  | _ :: _ =>
      if negb is_final then
        emit (Print (LogPartial transcript))
      else
        emit (Print (LogFinal transcript)) ;;;
        context <- retrieve_or_fallback transcript ;;;
        let instructions := prompt transcript context in
        emit (Print LogSending) ;;;
        emit (StsSend (response_create response_id instructions))
  end.

(** Lines 122-188. *)
Definition handle_text_message (decoded : json) (streamsid : json) : M unit :=
  handle_barge_in decoded streamsid ;;;
  turn_controller decoded.

(** A message of the agent transport: a text frame or a binary frame. *)
Inductive agent_message : Type :=
| Text (s : pystr)
| Binary (raw : list byte).

(** Lines 213-219. *)
Definition media_message (streamsid : json) (raw_mulaw : list byte) : json :=
  JObj [(py "event", JStr (py "media"));
        (py "streamSid", streamsid);
        (py "media", JObj [(py "payload", JStr (b64encode raw_mulaw))])].

(** One iteration of the [async for] of [sts_receiver] (lines 205-220). *)
Definition sts_receive (streamsid : json) (message : agent_message) : M unit :=
  match message with
  | Text s =>
      decoded <- lift (match json_loads s with
                       | Some d => Ok d
                       | None => Raise ValueError
                       end) ;;;
      emit (Print (LogDeepgram decoded)) ;;;
      handle_text_message decoded streamsid
  | Binary raw_mulaw =>
      emit (TwilioSend (media_message streamsid raw_mulaw))
  end.

(** [sts_receiver] once [streamsid_queue.get()] has returned [streamsid]:
    the loop over the messages the agent transport delivers, up to its
    close.  Nothing in the loop catches an exception. *)
Fixpoint sts_receiver (streamsid : json) (messages : list agent_message) : M unit :=
  match messages with
  | [] => ret tt
  | message :: rest =>
      sts_receive streamsid message ;;;
      sts_receiver streamsid rest
  end.

End Agent.

(* ===================================================================== *)
(** ** The three coroutines under [asyncio.gather] *)
(* ===================================================================== *)

Inductive task_status : Type :=
| Running
| Finished            (* the coroutine returned *)
| Failed (e : exn).   (* the coroutine raised *)

Inductive task : Type := TwilioReceiver | StsSender | StsReceiver.

(** One session: what the two transports will still deliver, the two
    queues and the receiver's buffer, the state of each coroutine and
    everything sent or requested so far.  A transport's list ends where
    the transport closes.  A send to the telephony transport is taken to
    succeed; a send to the agent transport raises once that transport is
    closed (see [step_sender]).  The coroutines are interleaved message
    by message; the configuration blob of line 341 goes out before they
    start and is not recorded. *)
Record relay : Type := {
  twilio_in : list pystr;
  sts_in : list agent_message;
  shared : receiver_state;
  receiver_task : task_status;
  sender_task : task_status;
  agent_task : task_status;
  agent_streamsid : option json;   (* [None] until [streamsid_queue.get()] returns *)
  wire : list event
}.

(** Lines 193-196: one turn of the [while True] of [sts_sender];
    [None] while [audio_queue.get()] is suspended on an empty queue. *)
Definition sts_sender (queue : list (list byte))
  : option (list (list byte) * event) :=
  match queue with
  | [] => None
  | chunk :: rest => Some (rest, StsSendAudio chunk)
  end.

Definition is_running (s : task_status) : bool :=
  match s with Running => true | _ => false end.

Section Relay.

Variable json_loads : pystr -> option json.
Variable b64decode : pystr -> option (list byte).
Variable b64encode : list byte -> pystr.
Variable embeddings_create : pystr -> option vector.
Variable index_query : vector -> nat -> option (list Match).

(** [twilio_receiver] advances by one message, or returns when the
    transport has closed. *)
Definition step_receiver (c : relay) : option relay :=
  if is_running (receiver_task c) then
    match twilio_in c with
    | [] =>
        Some {| twilio_in := []; sts_in := sts_in c; shared := shared c;
                receiver_task := Finished; sender_task := sender_task c;
                agent_task := agent_task c;
                agent_streamsid := agent_streamsid c; wire := wire c |}
    | message :: rest =>
        let (st, ctl) := twilio_step json_loads b64decode message (shared c) in
        Some {| twilio_in := rest; sts_in := sts_in c; shared := st;
                receiver_task := match ctl with
                                 | Continue => Running
                                 | Break => Finished
                                 end;
                sender_task := sender_task c; agent_task := agent_task c;
                agent_streamsid := agent_streamsid c; wire := wire c |}
    end
  else None.

(** [sts_sender] takes the frame at the head of the queue and calls
    [sts_ws.send] with it; the call is recorded on the wire.  The call
    raises when the agent transport is closed, and it is closed once
    [sts_receiver] has left its loop: either its iteration ended because
    the transport closed, or its exception made [gather] raise and the
    [async with] of [twilio_handler] close the transport.  Nothing in
    [sts_sender] catches the exception, so it ends the coroutine; the
    [while True] has no other exit. *)
Definition step_sender (c : relay) : option relay :=
  if is_running (sender_task c) then
    match sts_sender (audio_queue (shared c)) with
    | None => None
    | Some (rest, ev) =>
        Some {| twilio_in := twilio_in c; sts_in := sts_in c;
                shared := set_buffers (shared c) (inbuffer (shared c), rest);
                receiver_task := receiver_task c;
                sender_task := if is_running (agent_task c)
                               then Running else Failed ServiceError;
                agent_task := agent_task c;
                agent_streamsid := agent_streamsid c;
                wire := wire c ++ [ev] |}
    end
  else None.

(** [sts_receiver] takes the stream identifier off its queue, then
    handles one agent message at a time; it returns when the agent
    transport has closed and stops at the first exception. *)
Definition step_agent (c : relay) : option relay :=
  if is_running (agent_task c) then
    match agent_streamsid c with
    | None =>
        match streamsid_queue (shared c) with
        | [] => None
        | sid :: rest =>
            Some {| twilio_in := twilio_in c; sts_in := sts_in c;
                    shared := {| inbuffer := inbuffer (shared c);
                                 audio_queue := audio_queue (shared c);
                                 streamsid_queue := rest;
                                 printed := printed (shared c) |};
                    receiver_task := receiver_task c;
                    sender_task := sender_task c; agent_task := Running;
                    agent_streamsid := Some sid; wire := wire c |}
        end
    | Some sid =>
        match sts_in c with
        | [] =>
            Some {| twilio_in := twilio_in c; sts_in := []; shared := shared c;
                    receiver_task := receiver_task c;
                    sender_task := sender_task c; agent_task := Finished;
                    agent_streamsid := Some sid; wire := wire c |}
        | message :: rest =>
            let (evs, r) := sts_receive embeddings_create index_query
                                        json_loads b64encode sid message in
            Some {| twilio_in := twilio_in c; sts_in := rest; shared := shared c;
                    receiver_task := receiver_task c;
                    sender_task := sender_task c;
                    agent_task := match r with
                                  | Ok _ => Running
                                  | Raise e => Failed e
                                  end;
                    agent_streamsid := Some sid; wire := wire c ++ evs |}
        end
    end
  else None.

Definition step_task (t : task) (c : relay) : option relay :=
  match t with
  | TwilioReceiver => step_receiver c
  | StsSender => step_sender c
  | StsReceiver => step_agent c
  end.

(** The event loop resumes any coroutine that can advance. *)
Inductive step : relay -> relay -> Prop :=
| step_intro t c c' : step_task t c = Some c' -> step c c'.

Inductive steps : relay -> relay -> Prop :=
| steps_refl c : steps c c
| steps_next c c' c'' : step c c' -> steps c' c'' -> steps c c''.

(** Running a given schedule; a coroutine that cannot advance is skipped. *)
Fixpoint run (schedule : list task) (c : relay) : relay :=
  match schedule with
  | [] => c
  | t :: rest =>
      match step_task t c with
      | Some c' => run rest c'
      | None => run rest c
      end
  end.

(** [twilio_handler] (lines 336-347): fresh queues, three coroutines. *)
Definition session (telephony : list pystr) (agent : list agent_message) : relay :=
  {| twilio_in := telephony; sts_in := agent; shared := receiver_init;
     receiver_task := Running; sender_task := Running; agent_task := Running;
     agent_streamsid := None; wire := [] |}.





End Relay.

(* ===================================================================== *)
(** ** Sample transports and services *)
(* ===================================================================== *)

(** Concrete messages and stand-ins for the library calls, used to run the
    model.  Each stand-in is a finite table: it answers as the library
    does on the entries listed and is not consulted outside them. *)

Definition quoted (s : string) : pystr := [34%N] ++ py s ++ [34%N].

(** [{"event":"start","start":{"streamSid":"<sid>"}}] *)
Definition start_text (sid : string) : pystr :=
  py "{" ++ quoted "event" ++ py ":" ++ quoted "start" ++ py ","
    ++ quoted "start" ++ py ":{" ++ quoted "streamSid" ++ py ":" ++ quoted sid
    ++ py "}}".

Definition start_json (sid : string) : json :=
  JObj [(py "event", JStr (py "start"));
        (py "start", JObj [(py "streamSid", JStr (py sid))])].

(** Base64 of [n] zero bytes, for [n = 3k + 1]: [4k] letters A, then AA==. *)
Definition zeros_b64 (k : nat) : pystr :=
  repeat 65%N (4 * k) ++ py "AA==".

Definition zeros (n : nat) : list byte := repeat x00 n.

(** [{"event":"media","media":{"payload":"<payload>"}}] *)
Definition media_text (payload : pystr) : pystr :=
  py "{" ++ quoted "event" ++ py ":" ++ quoted "media" ++ py ","
    ++ quoted "media" ++ py ":{" ++ quoted "payload" ++ py ":"
    ++ [34%N] ++ payload ++ [34%N] ++ py "}}".

Definition media_json (payload : pystr) : json :=
  JObj [(py "event", JStr (py "media"));
        (py "media", JObj [(py "payload", JStr payload)])].

(** [{"event":"stop"}] *)
Definition stop_text : pystr :=
  py "{" ++ quoted "event" ++ py ":" ++ quoted "stop" ++ py "}".

Definition stop_json : json := JObj [(py "event", JStr (py "stop"))].

(** A media event carrying 1600 zero bytes. *)
Definition half_frame_text : pystr := media_text (zeros_b64 533).

Definition sample_messages : list (pystr * json) :=
  [ (start_text "A", start_json "A");
    (start_text "B", start_json "B");
    (half_frame_text, media_json (zeros_b64 533));
    (stop_text, stop_json) ].

(** [json.loads] on the sample messages; [py "{"] is not among them, and
    [json.loads] raises on it. *)
Definition sample_loads (message : pystr) : option json :=
  lookup message sample_messages.

(** [base64.b64decode] on the sample payloads.  Characters outside the
    alphabet are discarded, so ["*"] decodes to no bytes. *)
Definition sample_b64decode (payload : pystr) : option (list byte) :=
  if pystr_eqb payload (zeros_b64 533) then Some (zeros 1600)
  else if pystr_eqb payload (py "AAAA") then Some (zeros 3)
  else if pystr_eqb payload (py "*") then Some []
  else None.

(** Base64 of a run of zero bytes whose length is a multiple of 3. *)
Definition sample_b64encode (raw : list byte) : pystr :=
  repeat 65%N (4 * (length raw / 3)).

(** An embedding service that answers every text with one vector, and an
    index holding three entries, the second without an answer. *)
Definition sample_embeddings (input : pystr) : option vector :=
  Some [S754_zero false].

Definition sample_matches : list Match :=
  [ {| metadata := Some [(py "answer", JStr (py "Course A info"))] |};
    {| metadata := Some [(py "question", JStr (py "Pricing?"))] |};
    {| metadata := Some [(py "answer", JStr (py "Course B info"))] |} ].

Definition sample_index (v : vector) (top_k : nat) : option (list Match) :=
  Some (firstn top_k sample_matches).

(** An index whose entries carry no answer. *)
Definition answerless_index (v : vector) (top_k : nat) : option (list Match) :=
  Some (firstn top_k
          [ {| metadata := Some [(py "question", JStr (py "Pricing?"))] |};
            {| metadata := None |} ]).

(** Services that are down. *)
Definition failing_embeddings (input : pystr) : option vector := None.

(* ===================================================================== *)
(** ** Vocabulary of the statements *)
(* ===================================================================== *)

(** Telephony events as the receiver reads them. *)
Inductive inbound_event : Type :=
| SessionStart (sid : json)
| MediaChunk (raw : list byte).

Definition media_chunks (evs : list inbound_event) : list (list byte) :=
  flat_map (fun ev => match ev with MediaChunk raw => [raw] | _ => [] end) evs.

Definition start_ids (evs : list inbound_event) : list json :=
  flat_map (fun ev => match ev with SessionStart sid => [sid] | _ => [] end) evs.

(** [message] is the wire form of [ev]. *)
Definition decodes_to (json_loads : pystr -> option json)
    (b64decode : pystr -> option (list byte))
    (message : pystr) (ev : inbound_event) : Prop :=
  match ev with
  | SessionStart sid => start_event json_loads message sid
  | MediaChunk raw => media_event json_loads b64decode message raw
  end.

(** Classification of events. *)
Definition is_twilio_send (e : event) : bool :=
  match e with TwilioSend _ => true | _ => false end.

(** A request to the Knowledge Retriever's services. *)
Definition is_retrieval (e : event) : bool :=
  match e with EmbeddingsCreate _ | IndexQuery _ _ => true | _ => false end.

(** A JSON message to the agent transport: the response injection. *)
Definition is_injection (e : event) : bool :=
  match e with StsSend _ => true | _ => false end.

(** [d.get(k)] on a dict. *)
Definition field (fields : list (pystr * json)) (k : pystr) : json :=
  match lookup k fields with
  | Some v => v
  | None => JNull
  end.

(** Line 94 on a dict. *)
Definition direct_transcript (fields : list (pystr * json)) : json :=
  py_or (field fields (py "transcript")) (py_or (field fields (py "text")) (JStr [])).

(** Line 104 holds for the first entry of the alternatives list. *)
Definition alternative_final (fields : list (pystr * json)) : bool :=
  match lookup (py "alternatives") fields with
  | Some (JArr (JObj alt :: _)) =>
      truthy (py_or (field alt (py "final")) (field alt (py "is_final")))
  | _ => false
  end.

(** Line 80: the match carries an answer. *)
Definition has_answer (m : Match) : bool :=
  match metadata m with
  | Some fields => has_key (py "answer") fields
  | None => false
  end.

(** [match.metadata["answer"]] *)
Definition answer_of (m : Match) : json :=
  match metadata m with
  | Some fields => field fields (py "answer")
  | None => JNull
  end.

(* ===================================================================== *)
(** ** Sample events and sessions *)
(* ===================================================================== *)

(** Decoded control events of the agent. *)
Definition speaking_event : json :=
  JObj [(py "type", JStr (py "UserStartedSpeaking"))].

Definition partial_fields : list (pystr * json) :=
  [(py "type", JStr (py "ConversationText"));
   (py "transcript", JStr (py "What cour"));
   (py "is_final", JBool false)].

(** [is_final] is false at the top, the first alternative is final. *)
Definition override_event : json :=
  JObj [(py "type", JStr (py "ConversationText"));
        (py "is_final", JBool false);
        (py "alternatives",
         JArr [JObj [(py "transcript", JStr (py "hi"));
                     (py "final", JBool true)]])].

Definition final_event : json :=
  JObj [(py "type", JStr (py "ConversationText"));
        (py "transcript", JStr (py "What courses do you offer?"));
        (py "is_final", JBool true);
        (py "response_id", JStr (py "r1"))].

(** The sample call: start, one frame in two halves, then stop. *)
Definition sample_call : list pystr :=
  [start_text "A"; half_frame_text; half_frame_text].

Definition sample_call_events : list inbound_event :=
  [SessionStart (JStr (py "A")); MediaChunk (zeros 1600); MediaChunk (zeros 1600)].

(** The sample session: the sample call followed by stop, while the
    agent transport holds one audio frame. *)
Definition sample_session : relay :=
  session (sample_call ++ [stop_text]) [Binary (zeros 3)].

(** The receiver runs up to the stop event. *)
Definition until_stop : list task :=
  [TwilioReceiver; TwilioReceiver; TwilioReceiver; TwilioReceiver].

(** Then the other two coroutines are resumed. *)
Definition after_stop : list task := [StsSender; StsReceiver; StsReceiver].


(** The sample session once the receiver has handled the stop event. *)
Definition sample_stopped : relay :=
  run sample_loads sample_b64decode sample_b64encode sample_embeddings
      sample_index until_stop sample_session.

(* ===================================================================== *)
(** ** The HTTP endpoints of [main.py] *)
(* ===================================================================== *)

(** [s.startswith(prefix)] *)
Fixpoint startswith (s prefix : pystr) : bool :=
  match prefix, s with
  | [], _ => true
  | p :: ps, c :: cs => N.eqb p c && startswith cs ps
  | _ :: _, [] => false
  end.

(** The scan of [str.replace] for a non-empty [old]: left to right, each
    occurrence found is replaced and the scan resumes behind it ([skip]
    counts the characters of the occurrence still to pass). *)
Fixpoint replace_from (old new : pystr) (skip : nat) (s : pystr) : pystr :=
  match s with
  | [] => []
  | c :: r =>
      match skip with
      | S k => replace_from old new k r
      | O =>
          if startswith s old
          then new ++ replace_from old new (length old - 1) r
          else c :: replace_from old new 0 r
      end
  end.

(** [s.replace(old, new)]; an empty [old] matches before every character
    and at the end. *)
Definition str_replace (s old new : pystr) : pystr :=
  match old with
  | [] => new ++ flat_map (fun c => c :: new) s
  | _ :: _ => replace_from old new 0 s
  end.

(** The arguments of [twilio_client.calls.create]. *)
Record call_request : Type := {
  call_to : pystr;
  call_from : option pystr;
  call_url : pystr
}.

(** The TwiML verbs [voice_start] appends to its [VoiceResponse]. *)
Inductive twiml_verb : Type :=
| Say (text : pystr)
| ConnectStream (url : pystr).

(** What [voice_start] returns: a plain response with a status, or the
    XML of a [VoiceResponse] (status 200, [application/xml]). *)
Inductive http_response : Type :=
| PlainResponse (status : nat) (content : pystr)
| TwimlResponse (verbs : list twiml_verb).

Section Endpoints.

(** [os.getenv] *)
Variable getenv : pystr -> option pystr.
(** [twilio_client.calls.create(...).sid]; [None] when the call raises. *)
Variable calls_create : call_request -> option pystr.

(** Lines 262-276: the requests made to Twilio, then the JSON body
    returned or the exception raised. *)
Definition make_call (to_number : pystr) : list call_request * result json :=
  match getenv (py "PUBLIC_URL") with
  | None => ([], Ok (JObj [(py "error", JStr (py "Set PUBLIC_URL"))]))
  | Some [] => ([], Ok (JObj [(py "error", JStr (py "Set PUBLIC_URL"))]))
  | Some public_url =>
      let public_url :=
        if startswith public_url (py "http") then public_url
        else py "https://" ++ public_url in
      let request :=
        {| call_to := to_number;
           call_from := getenv (py "TWILIO_PHONE_NUMBER");
           call_url := public_url ++ py "/voice" |} in
      match calls_create request with
      | Some sid =>
          ([request],
           Ok (JObj [(py "message", JStr (py "Call started"));
                     (py "sid", JStr sid)]))
      | None => ([request], Raise ServiceError)
      end
  end.

(** Lines 309-313. *)
Definition ws_url (public_url : pystr) : pystr :=
  str_replace (str_replace public_url (py "https://") (py "wss://"))
              (py "http://") (py "ws://").

(** Lines 282-325, on the [Direction] field of the form. *)
Definition voice_start (direction : option pystr) : http_response :=
  let greeting :=
    match direction with
    | Some d =>
        if pystr_eqb d (py "inbound")
        then py "Welcome to Skillorea. You are now connected to our AI assistant."
        else py "Connecting you to Skillorea Voice agent."
    | None => py "Connecting you to Skillorea Voice agent."
    end in
  match getenv (py "PUBLIC_URL") with
  | None => PlainResponse 500 (py "PUBLIC_URL not configured")
  | Some [] => PlainResponse 500 (py "PUBLIC_URL not configured")
  | Some public_url =>
      TwimlResponse [Say greeting; ConnectStream (ws_url public_url ++ py "/twilio")]
  end.

End Endpoints.

(* ===================================================================== *)
(** ** [trigger_call.py] *)
(* ===================================================================== *)

(** What [requests.post] returns: the status, the body and what
    [response.json()] gives ([None] when it raises). *)
Record http_reply : Type := {
  status_code : Z;
  reply_text : pystr;
  reply_json : option json
}.

(** The lines the script prints. *)
Inductive script_line : Type :=
| SayingSending (number : pystr)   (* Sending request to call <number>... *)
| SayingSuccess                    (* SUCCESS! Call initiated. *)
| SayingResponse (body : json)     (* Response: <json> *)
| SayingFailed                     (* FAILED. *)
| SayingStatus (code : Z)          (* Status Code: <code> *)
| SayingError (text : pystr)       (* Error: <text> *)
| SayingNoServer                   (* ERROR: Could not connect to server. *)
| SayingHint                       (* Make sure 'python demo.py' is running ... *)
| SayingDetails (e : exn).         (* Details: <e> *)

Inductive script_event : Type :=
| Asked                                  (* input("Enter the phone number ...") *)
| Posted (url : pystr) (payload : json)  (* requests.post(url, json=payload) *)
| Wrote (l : script_line).

Definition PLACEHOLDER_NUMBER : pystr := py "+1234567890".

Definition MAKE_CALL_URL : pystr := py "http://localhost:5000/make-call".

Section TriggerCall.

(** The module constant the user is told to replace. *)
Variable TO_NUMBER : pystr.
(** What [input] returns; [None] when it raises. *)
Variable typed : option pystr.
(** [requests.post]; [None] when it raises. *)
Variable post : pystr -> json -> option http_reply.

(** Lines 20-35 of [trigger_call.py]: the [try] and its [except]. *)
Definition send_request (target_number : pystr) : list script_event :=
  let payload := JObj [(py "to_number", JStr target_number)] in
  [Wrote (SayingSending target_number); Posted MAKE_CALL_URL payload] ++
  match post MAKE_CALL_URL payload with
  | None =>
      [Wrote SayingNoServer; Wrote SayingHint; Wrote (SayingDetails ServiceError)]
  | Some response =>
      if Z.eqb (status_code response) 200 then
        Wrote SayingSuccess ::
        match reply_json response with
        | Some body => [Wrote (SayingResponse body)]
        | None =>
            [Wrote SayingNoServer; Wrote SayingHint;
             Wrote (SayingDetails ValueError)]
        end
      else
        [Wrote SayingFailed; Wrote (SayingStatus (status_code response));
         Wrote (SayingError (reply_text response))]
  end.

(** Lines 8-35 of [trigger_call.py]. *)
Definition trigger_call : list script_event * result unit :=
  if pystr_eqb TO_NUMBER PLACEHOLDER_NUMBER then
    match typed with
    | Some target_number => (Asked :: send_request target_number, Ok tt)
    | None => ([Asked], Raise ServiceError)
    end
  else (send_request TO_NUMBER, Ok tt).

End TriggerCall.

(* ===================================================================== *)
(** ** Further vocabulary and samples *)
(* ===================================================================== *)

(** The state after a message that does not end the loop: some bytes
    buffered and drained, some identifiers queued. *)
Definition advanced (st : receiver_state) (chunk : list byte) (sids : list json)
  : receiver_state :=
  {| inbuffer := fst (drain (inbuffer st ++ chunk) (audio_queue st));
     audio_queue := snd (drain (inbuffer st ++ chunk) (audio_queue st));
     streamsid_queue := streamsid_queue st ++ sids;
     printed := printed st |}.

(** The messages on which the body of the [try] of [twilio_receiver]
    raises, with the exception Python raises:
    - a text that is not JSON ([ValueError]);
    - a document that cannot be indexed by "event": not an object
      ([TypeError]) or without that entry ([KeyError]);
    - a start event whose "start" or "streamSid" cannot be read;
    - a media event whose "media" or "payload" cannot be read, whose
      payload is not a string ([TypeError]), or whose payload
      [b64decode] refuses ([ValueError]). *)
Inductive rejects (json_loads : pystr -> option json)
    (b64decode : pystr -> option (list byte)) : pystr -> exn -> Prop :=
| rejects_text message :
    json_loads message = None ->
    rejects json_loads b64decode message ValueError
| rejects_event message data e :
    json_loads message = Some data ->
    subscript data (py "event") = Raise e ->
    rejects json_loads b64decode message e
| rejects_start message data e :
    json_loads message = Some data ->
    subscript data (py "event") = Ok (JStr (py "start")) ->
    subscript data (py "start") = Raise e ->
    rejects json_loads b64decode message e
| rejects_streamsid message data start e :
    json_loads message = Some data ->
    subscript data (py "event") = Ok (JStr (py "start")) ->
    subscript data (py "start") = Ok start ->
    subscript start (py "streamSid") = Raise e ->
    rejects json_loads b64decode message e
| rejects_media message data e :
    json_loads message = Some data ->
    subscript data (py "event") = Ok (JStr (py "media")) ->
    subscript data (py "media") = Raise e ->
    rejects json_loads b64decode message e
| rejects_payload message data media e :
    json_loads message = Some data ->
    subscript data (py "event") = Ok (JStr (py "media")) ->
    subscript data (py "media") = Ok media ->
    subscript media (py "payload") = Raise e ->
    rejects json_loads b64decode message e
| rejects_payload_type message data media payload :
    json_loads message = Some data ->
    subscript data (py "event") = Ok (JStr (py "media")) ->
    subscript data (py "media") = Ok media ->
    subscript media (py "payload") = Ok payload ->
    (forall text, payload <> JStr text) ->
    rejects json_loads b64decode message TypeError
| rejects_base64 message data media text :
    json_loads message = Some data ->
    subscript data (py "event") = Ok (JStr (py "media")) ->
    subscript data (py "media") = Ok media ->
    subscript media (py "payload") = Ok (JStr text) ->
    b64decode text = None ->
    rejects json_loads b64decode message ValueError.

(** The audio frames passed to [sts_ws.send], in order. *)
Definition sent_audio (evs : list event) : list (list byte) :=
  flat_map (fun e => match e with StsSendAudio chunk => [chunk] | _ => [] end) evs.

(** The messages sent to the telephony transport, in order. *)
Definition sent_twilio (evs : list event) : list json :=
  flat_map (fun e => match e with TwilioSend msg => [msg] | _ => [] end) evs.

(** Every frame buffered, queued or sent has its full size. *)
Definition frames_whole (c : relay) : Prop :=
  length (inbuffer (shared c)) < BUFFER_SIZE /\
  Forall (fun f => length f = BUFFER_SIZE) (audio_queue (shared c)) /\
  Forall (fun f => length f = BUFFER_SIZE) (sent_audio (wire c)).

(** Until [sts_receiver] has its stream identifier it has read and sent
    nothing; afterwards all it sent to the telephony transport carries
    that identifier. *)
Definition stream_tagged (agent : list agent_message) (c : relay) : Prop :=
  match agent_streamsid c with
  | None => sent_twilio (wire c) = [] /\ sts_in c = agent
  | Some sid =>
      Forall (fun msg => subscript msg (py "streamSid") = Ok sid)
             (sent_twilio (wire c))
  end.

(** The relay has read the events [consumed] of [evs]: the frames sent and
    queued are the frames of their bytes, the buffer holds the rest, and
    the identifiers of their start events were queued. *)
Definition in_step (json_loads : pystr -> option json)
    (b64decode : pystr -> option (list byte))
    (evs : list inbound_event) (c : relay) : Prop :=
  exists consumed remaining,
    evs = consumed ++ remaining /\
    Forall2 (decodes_to json_loads b64decode) (twilio_in c) remaining /\
    sent_audio (wire c) ++ audio_queue (shared c)
      = snd (drain (concat (media_chunks consumed)) []) /\
    inbuffer (shared c) = fst (drain (concat (media_chunks consumed)) []) /\
    match agent_streamsid c with
    | None => streamsid_queue (shared c) = start_ids consumed
    | Some sid => sid :: streamsid_queue (shared c) = start_ids consumed
    end.

(** The posts of the script. *)
Definition posts (evs : list script_event) : list (pystr * json) :=
  flat_map (fun e => match e with Posted url payload => [(url, payload)] | _ => [] end)
           evs.

(** [{"event":"connected"}], the first message of a media stream. *)
Definition connected_text : pystr :=
  py "{" ++ quoted "event" ++ py ":" ++ quoted "connected" ++ py "}".

Definition connected_json : json := JObj [(py "event", JStr (py "connected"))].

(** A media event whose payload is a number:
    [{"event":"media","media":{"payload":5}}]. *)
Definition bad_media_text : pystr :=
  py "{" ++ quoted "event" ++ py ":" ++ quoted "media" ++ py ","
    ++ quoted "media" ++ py ":{" ++ quoted "payload" ++ py ":5}}".

Definition bad_media_json : json :=
  JObj [(py "event", JStr (py "media"));
        (py "media", JObj [(py "payload", JInt 5)])].

Definition more_messages : list (pystr * json) :=
  sample_messages ++
  [ (connected_text, connected_json);
    (bad_media_text, bad_media_json) ].

Definition more_loads (message : pystr) : option json :=
  lookup message more_messages.

(** An index whose first entry carries a number as its answer. *)
Definition numeric_index (v : vector) (top_k : nat) : option (list Match) :=
  Some (firstn top_k [ {| metadata := Some [(py "answer", JInt 42)] |} ]).

(** Environments. *)
Definition env_https (name : pystr) : option pystr :=
  if pystr_eqb name (py "PUBLIC_URL") then Some (py "https://relay.example.com")
  else if pystr_eqb name (py "TWILIO_PHONE_NUMBER") then Some (py "+15550100")
  else None.


Definition env_empty (name : pystr) : option pystr := None.

Definition sample_calls_create (request : call_request) : option pystr :=
  Some (py "CA1").

Definition sample_post (url : pystr) (payload : json) : option http_reply :=
  Some {| status_code := 200; reply_text := py "ok";
          reply_json := Some (JObj [(py "message", JStr (py "Call started"))]) |}.

(** A session on the sample call, without a stop event. *)
Definition open_session : relay :=
  session sample_call [Binary (zeros 3)].

(** The receiver reads the three messages, then the other two coroutines
    are resumed. *)
Definition open_schedule : list task :=
  [TwilioReceiver; TwilioReceiver; TwilioReceiver;
   StsSender; StsReceiver; StsReceiver].

Definition open_relay : relay :=
  run sample_loads sample_b64decode sample_b64encode sample_embeddings
      sample_index open_schedule open_session.

(** The sample session while only the agent side has been resumed. *)
Definition waiting_relay : relay :=
  run sample_loads sample_b64decode sample_b64encode sample_embeddings
      sample_index [StsReceiver; StsSender; StsReceiver] sample_session.

(** More decoded control events. *)
Definition padded_fields : list (pystr * json) :=
  [(py "transcript", JStr (py "  hello "));
   (py "is_final", JBool true);
   (py "id", JStr (py "u7"));
   (py "alternatives", JArr [JObj [(py "transcript", JStr (py "other"))]])].

Definition override_fields : list (pystr * json) :=
  [(py "type", JStr (py "ConversationText"));
   (py "is_final", JBool false);
   (py "alternatives",
    JArr [JObj [(py "transcript", JStr (py "hi")); (py "final", JBool true)]])].

Definition blank_fields : list (pystr * json) :=
  [(py "transcript", JStr (py "  ")); (py "is_final", JBool true)].

(** [old in s], decided by trying every position. *)
Definition occurs (old s : pystr) : bool :=
  existsb (fun k => startswith (skipn k s) old) (seq 0 (S (length s))).

Definition sample_host : pystr := py "relay.example.com".

Definition env_http (name : pystr) : option pystr :=
  if pystr_eqb name (py "PUBLIC_URL") then Some (py "http://" ++ sample_host)
  else None.

(** [json.loads] on the text of an empty JSON list. *)
Definition list_loads (message : pystr) : option json :=
  if pystr_eqb message (py "[]") then Some (JArr []) else None.

(* ===================================================================== *)
(** * Properties *)
(* ===================================================================== *)

(** ** The chunk buffer *)

Lemma BUFFER_SIZE_val : BUFFER_SIZE = 3200.
Proof. vm_compute. reflexivity. Qed.

Lemma BUFFER_SIZE_pos : 0 < BUFFER_SIZE.
Proof. rewrite BUFFER_SIZE_val. lia. Qed.

Lemma drain_ge inbuffer queue :
  BUFFER_SIZE <= length inbuffer ->
  drain inbuffer queue =
  drain (skipn BUFFER_SIZE inbuffer) (queue ++ [firstn BUFFER_SIZE inbuffer]).
Proof.
  intros H. rewrite drain_equation_1.
  destruct (le_lt_dec BUFFER_SIZE (length inbuffer)); [reflexivity | lia].
Qed.

Lemma drain_lt inbuffer queue :
  length inbuffer < BUFFER_SIZE -> drain inbuffer queue = (inbuffer, queue).
Proof.
  intros H. rewrite drain_equation_1.
  destruct (le_lt_dec BUFFER_SIZE (length inbuffer)); [lia | reflexivity].
Qed.

(** The loop cuts the buffer into full frames, appended to the queue in
    order, and leaves less than one frame. *)
Lemma drain_spec inbuffer queue :
  exists frames rest,
    drain inbuffer queue = (rest, queue ++ frames) /\
    concat frames ++ rest = inbuffer /\
    Forall (fun f => length f = BUFFER_SIZE) frames /\
    length rest < BUFFER_SIZE.
Proof.
  remember (length inbuffer) as n eqn:Hn.
  revert inbuffer queue Hn.
  induction n as [n IH] using lt_wf_ind; intros inbuffer queue Hn.
  destruct (le_lt_dec BUFFER_SIZE (length inbuffer)) as [Hge | Hlt].
  - pose proof BUFFER_SIZE_pos as Hpos.
    destruct (IH (length (skipn BUFFER_SIZE inbuffer))
                 ltac:(rewrite length_skipn; lia)
                 (skipn BUFFER_SIZE inbuffer)
                 (queue ++ [firstn BUFFER_SIZE inbuffer]) eq_refl)
      as (frames & rest & Hd & Hcat & Hall & Hrest).
    exists (firstn BUFFER_SIZE inbuffer :: frames), rest.
    repeat split.
    + rewrite drain_ge by exact Hge. rewrite Hd, <- app_assoc. reflexivity.
    + simpl. rewrite <- app_assoc, Hcat. apply firstn_skipn.
    + constructor; [| exact Hall]. rewrite length_firstn. lia.
    + exact Hrest.
  - exists [], inbuffer. repeat split.
    + rewrite drain_lt by exact Hlt. rewrite app_nil_r. reflexivity.
    + constructor.
    + exact Hlt.
Qed.

(** Draining after every chunk cuts the same frames as draining once. *)
Lemma drain_incremental inbuffer chunk queue :
  drain (fst (drain inbuffer queue) ++ chunk) (snd (drain inbuffer queue)) =
  drain (inbuffer ++ chunk) queue.
Proof.
  remember (length inbuffer) as n eqn:Hn.
  revert inbuffer queue Hn.
  induction n as [n IH] using lt_wf_ind; intros inbuffer queue Hn.
  destruct (le_lt_dec BUFFER_SIZE (length inbuffer)) as [Hge | Hlt].
  - pose proof BUFFER_SIZE_pos as Hpos.
    rewrite (drain_ge inbuffer) by exact Hge.
    rewrite (drain_ge (inbuffer ++ chunk)) by (rewrite length_app; lia).
    rewrite firstn_app, skipn_app.
    replace (BUFFER_SIZE - length inbuffer) with 0 by lia.
    simpl. rewrite app_nil_r.
    apply (IH (length (skipn BUFFER_SIZE inbuffer))); [| reflexivity].
    rewrite length_skipn. lia.
  - rewrite (drain_lt inbuffer) by exact Hlt. reflexivity.
Qed.

(** ** [twilio_receiver] on well-formed events *)

Section TwilioReceiverProperties.

Variable json_loads : pystr -> option json.
Variable b64decode : pystr -> option (list byte).

Let receiver := twilio_receiver json_loads b64decode.
Let wire_of := decodes_to json_loads b64decode.

Lemma step_media message chunk st :
  media_event json_loads b64decode message chunk ->
  twilio_step json_loads b64decode message st =
  (set_buffers st (drain (inbuffer st ++ chunk) (audio_queue st)), Continue).
Proof.
  intros (data & media & payload & Hl & He & Hm & Hp & Hb).
  unfold twilio_step, twilio_try, loads. rewrite Hl. cbn [rbind].
  rewrite He. cbn [rbind].
  change (eq_str (JStr (py "media")) (py "start")) with false.
  change (eq_str (JStr (py "media")) (py "media")) with true.
  cbn iota. rewrite Hm. cbn [rbind]. rewrite Hp. cbn [rbind decode_payload].
  rewrite Hb. reflexivity.
Qed.

Lemma step_start message sid st :
  start_event json_loads message sid ->
  twilio_step json_loads b64decode message st =
  (set_buffers (put_streamsid st sid) (drain (inbuffer st) (audio_queue st)),
   Continue).
Proof.
  intros (data & start & Hl & He & Hs & Hi).
  unfold twilio_step, twilio_try, loads. rewrite Hl. cbn [rbind].
  rewrite He. cbn [rbind].
  change (eq_str (JStr (py "start")) (py "start")) with true.
  cbn iota. rewrite Hs. cbn [rbind]. rewrite Hi. reflexivity.
Qed.

Lemma step_stop message st :
  stop_event json_loads message ->
  twilio_step json_loads b64decode message st =
  (print_line st LogTwilioStop, Break).
Proof.
  intros (data & Hl & He).
  unfold twilio_step, twilio_try, loads. rewrite Hl. cbn [rbind].
  rewrite He. reflexivity.
Qed.

(** Over start and media events the receiver ends with the buffer and
    the queue that one drain of all the bytes gives, and with one
    stream identifier queued per start event. *)
Lemma drain_leaves_short inbuffer queue :
  length (fst (drain inbuffer queue)) < BUFFER_SIZE.
Proof.
  destruct (drain_spec inbuffer queue) as (frames & rest & Hd & _ & _ & Hr).
  rewrite Hd. exact Hr.
Qed.

Lemma receiver_events messages evs :
  Forall2 wire_of messages evs ->
  forall st,
  length (inbuffer st) < BUFFER_SIZE ->
  receiver messages st =
  {| inbuffer := fst (drain (inbuffer st ++ concat (media_chunks evs))
                            (audio_queue st));
     audio_queue := snd (drain (inbuffer st ++ concat (media_chunks evs))
                               (audio_queue st));
     streamsid_queue := streamsid_queue st ++ start_ids evs;
     printed := printed st |}.
Proof.
  induction 1 as [| message ev messages evs Hw _ IH]; intros st Hshort.
  - simpl. rewrite !app_nil_r, drain_lt by exact Hshort.
    destruct st; reflexivity.
  - unfold receiver in *. destruct ev as [sid | raw]; simpl in Hw.
    + cbn [twilio_receiver]. rewrite (step_start st Hw).
      rewrite drain_lt by exact Hshort.
      rewrite IH by exact Hshort.
      cbn [set_buffers put_streamsid inbuffer audio_queue streamsid_queue
           printed fst snd media_chunks start_ids flat_map app].
      rewrite <- app_assoc. reflexivity.
    + cbn [twilio_receiver]. rewrite (step_media st Hw).
      rewrite IH by apply drain_leaves_short.
      cbn [set_buffers inbuffer audio_queue streamsid_queue printed fst snd
           media_chunks start_ids flat_map app concat].
      rewrite drain_incremental, <- app_assoc. reflexivity.
Qed.

Lemma concat_frames_length (frames : list (list byte)) n :
  Forall (fun f => length f = n) frames ->
  length (concat frames) = n * length frames.
Proof.
  induction 1 as [| f frames Hf _ IH]; simpl.
  - lia.
  - rewrite length_app, IH, Hf. lia.
Qed.

(** C1.  Over telephony events whose media chunks add up to a multiple
    of 3200 bytes, [twilio_receiver] appends exactly total/3200 frames
    to the audio queue, each of 3200 bytes, their concatenation being
    the concatenation of the chunks in arrival order, and its buffer
    ends empty. *)
Theorem whole_frames_enqueued messages evs st :
  Forall2 wire_of messages evs ->
  inbuffer st = [] ->
  length (concat (media_chunks evs)) mod 3200 = 0 ->
  exists frames,
    audio_queue (receiver messages st) = audio_queue st ++ frames /\
    length frames = length (concat (media_chunks evs)) / 3200 /\
    Forall (fun f => length f = 3200) frames /\
    concat frames = concat (media_chunks evs) /\
    inbuffer (receiver messages st) = [].
Proof.
  intros Hw Hempty Hmod.
  rewrite (receiver_events Hw st)
    by (rewrite Hempty; apply BUFFER_SIZE_pos).
  rewrite Hempty. cbn [inbuffer audio_queue app].
  destruct (drain_spec (concat (media_chunks evs)) (audio_queue st))
    as (frames & rest & Hd & Hcat & Hall & Hrest).
  rewrite Hd. cbn [fst snd].
  pose proof (concat_frames_length Hall) as Hlen.
  rewrite BUFFER_SIZE_val in Hall, Hrest, Hlen.
  assert (Htotal : length (concat (media_chunks evs)) =
                   3200 * length frames + length rest).
  { rewrite <- Hcat at 1. rewrite length_app, Hlen. reflexivity. }
  assert (Hzero : length rest = 0).
  { rewrite (Nat.mod_unique _ _ _ _ Hrest Htotal). exact Hmod. }
  assert (Hnil : rest = []) by (destruct rest; [reflexivity | discriminate]).
  subst rest. exists frames. repeat split.
  - apply (Nat.div_unique _ _ _ _ Hrest Htotal).
  - exact Hall.
  - rewrite app_nil_r in Hcat. exact Hcat.
Qed.

(** C2.  Over telephony events with chunks of any lengths, the frames
    [twilio_receiver] appends to the audio queue, concatenated and
    followed by what is left in its buffer, are the concatenation of the
    decoded chunks: no byte is lost, repeated or moved. *)
Theorem frames_then_remainder_is_input messages evs st :
  Forall2 wire_of messages evs ->
  inbuffer st = [] ->
  exists frames,
    audio_queue (receiver messages st) = audio_queue st ++ frames /\
    concat frames ++ inbuffer (receiver messages st) =
    concat (media_chunks evs).
Proof.
  intros Hw Hempty.
  rewrite (receiver_events Hw st)
    by (rewrite Hempty; apply BUFFER_SIZE_pos).
  rewrite Hempty. cbn [inbuffer audio_queue app].
  destruct (drain_spec (concat (media_chunks evs)) (audio_queue st))
    as (frames & rest & Hd & Hcat & _ & _).
  rewrite Hd. cbn [fst snd]. exists frames. split; [reflexivity | exact Hcat].
Qed.

Lemma streamsid_queue_set_buffers st bq :
  streamsid_queue (set_buffers st bq) = streamsid_queue st.
Proof. reflexivity. Qed.

(** C9, as the code has it.  Every start event publishes: over start and
    media events [twilio_receiver] puts the stream identifier of each
    start event on [streamsid_queue], in arrival order, so the queue is
    written once per start event, and exactly once when the events hold
    one start. *)
Theorem every_start_publishes messages evs :
  Forall2 wire_of messages evs ->
  forall st,
  streamsid_queue (receiver messages st) = streamsid_queue st ++ start_ids evs /\
  (forall sid, start_ids evs = [sid] ->
     streamsid_queue (receiver messages receiver_init) = [sid]).
Proof.
  intros Hw.
  assert (Hq : forall st, streamsid_queue (receiver messages st) =
                          streamsid_queue st ++ start_ids evs).
  { induction Hw as [| message ev messages evs Hw _ IH]; intros st.
    - simpl. rewrite app_nil_r. reflexivity.
    - unfold receiver in *. cbn [twilio_receiver].
      destruct ev as [sid | raw]; simpl in Hw.
      + rewrite (step_start st Hw), IH, streamsid_queue_set_buffers.
        cbn [put_streamsid streamsid_queue start_ids flat_map app].
        rewrite <- app_assoc. reflexivity.
      + rewrite (step_media st Hw), IH, streamsid_queue_set_buffers.
        reflexivity. }
  intros st. split; [apply Hq |].
  intros sid Hone. rewrite Hq, Hone. reflexivity.
Qed.

End TwilioReceiverProperties.

(** *** Runs on the sample transport *)

Lemma sample_half_frame :
  media_event sample_loads sample_b64decode half_frame_text (zeros 1600).
Proof.
  exists (media_json (zeros_b64 533)),
         (JObj [(py "payload", JStr (zeros_b64 533))]), (zeros_b64 533).
  repeat split; vm_compute; reflexivity.
Defined.

Lemma sample_start_A :
  start_event sample_loads (start_text "A") (JStr (py "A")).
Proof.
  exists (start_json "A"), (JObj [(py "streamSid", JStr (py "A"))]).
  repeat split; vm_compute; reflexivity.
Defined.

Lemma sample_call_decodes :
  Forall2 (decodes_to sample_loads sample_b64decode) sample_call sample_call_events.
Proof.
  repeat constructor; first [exact sample_half_frame | exact sample_start_A].
Defined.

Lemma sample_prefix_decodes :
  Forall2 (decodes_to sample_loads sample_b64decode)
          (firstn 2 sample_call) (firstn 2 sample_call_events).
Proof.
  repeat constructor; first [exact sample_half_frame | exact sample_start_A].
Defined.

(** C1 on the sample call: a start event and two media events of 1600
    bytes give one frame. *)
Lemma whole_frames_enqueued_witness :
  exists frames,
    audio_queue (twilio_receiver sample_loads sample_b64decode
                                 sample_call receiver_init)
    = audio_queue receiver_init ++ frames /\
    length frames = length (concat (media_chunks sample_call_events)) / 3200 /\
    Forall (fun f => length f = 3200) frames /\
    concat frames = concat (media_chunks sample_call_events) /\
    inbuffer (twilio_receiver sample_loads sample_b64decode
                              sample_call receiver_init) = [].
Proof.
  apply (@whole_frames_enqueued sample_loads sample_b64decode
           sample_call sample_call_events receiver_init sample_call_decodes).
  - reflexivity.
  - vm_compute. reflexivity.
Defined.

(** C2 on the first two messages of the sample call: 1600 bytes stay
    buffered. *)
Lemma frames_then_remainder_is_input_witness :
  exists frames,
    audio_queue (twilio_receiver sample_loads sample_b64decode
                                 (firstn 2 sample_call) receiver_init)
    = audio_queue receiver_init ++ frames /\
    concat frames ++ inbuffer (twilio_receiver sample_loads sample_b64decode
                                               (firstn 2 sample_call) receiver_init)
    = concat (media_chunks (firstn 2 sample_call_events)).
Proof.
  apply (@frames_then_remainder_is_input sample_loads sample_b64decode
           (firstn 2 sample_call) (firstn 2 sample_call_events) receiver_init
           sample_prefix_decodes).
  reflexivity.
Defined.

(** C9 fails as stated: a second start event is published as well. *)
Lemma second_start_publishes_again :
  streamsid_queue (twilio_receiver sample_loads sample_b64decode
                                   [start_text "A"; start_text "B"] receiver_init)
  = [JStr (py "A"); JStr (py "B")] /\
  ~ length (streamsid_queue
              (twilio_receiver sample_loads sample_b64decode
                               [start_text "A"; start_text "B"] receiver_init)) <= 1.
Proof.
  split.
  - vm_compute. reflexivity.
  - vm_compute. lia.
Qed.

(** C9 as amended, on the sample call. *)
Lemma every_start_publishes_witness :
  streamsid_queue (twilio_receiver sample_loads sample_b64decode
                                   sample_call receiver_init)
  = streamsid_queue receiver_init ++ start_ids sample_call_events /\
  (forall sid, start_ids sample_call_events = [sid] ->
     streamsid_queue (twilio_receiver sample_loads sample_b64decode
                                      sample_call receiver_init) = [sid]).
Proof.
  exact (@every_start_publishes sample_loads sample_b64decode
           sample_call sample_call_events sample_call_decodes receiver_init).
Defined.

(** ** The agent side *)

Lemma bind_ok {A B} (m : M A) (k : A -> M B) a :
  outcome m = Ok a ->
  bind m k = (events m ++ events (k a), outcome (k a)).
Proof.
  destruct m as [t r]. simpl. intros ->. unfold bind.
  destruct (k a); reflexivity.
Qed.

Lemma get_dict fields k : get (JObj fields) k = Ok (field fields k).
Proof. unfold get, field. destruct (lookup k fields); reflexivity. Qed.

Section AgentProperties.

Variable embeddings_create : pystr -> option vector.
Variable index_query : vector -> nat -> option (list Match).
Variable json_loads : pystr -> option json.
Variable b64encode : list byte -> pystr.

Let retrieve := rag_retrieve embeddings_create index_query.
Let fallback := retrieve_or_fallback embeddings_create index_query.
Let turn := turn_controller embeddings_create index_query.
Let handle := handle_text_message embeddings_create index_query.
Let receive := sts_receiver embeddings_create index_query json_loads b64encode.
Let chosen := context_of embeddings_create index_query.

(** [rag_retrieve] only talks to its two services. *)
Lemma rag_retrieve_events query :
  forallb is_retrieval (events (retrieve query)) = true.
Proof.
  unfold retrieve, rag_retrieve, service.
  destruct (embeddings_create query) as [v |]; [| reflexivity].
  simpl. destruct (index_query v 3) as [matches |]; [| reflexivity].
  simpl. destruct (collect_contexts matches) as [| c cs]; [reflexivity |].
  simpl. destruct (join_contexts (c :: cs)); reflexivity.
Qed.

(** The [try]/[except] of lines 137-141 always yields a context. *)
Lemma fallback_cases transcript :
  fallback transcript =
  match outcome (retrieve transcript) with
  | Ok context => (events (retrieve transcript), Ok context)
  | Raise e => (events (retrieve transcript) ++ [Print (LogRagError e)],
                Ok NO_CONTEXT)
  end.
Proof.
  unfold fallback, retrieve_or_fallback, try_except, retrieve.
  destruct (rag_retrieve embeddings_create index_query transcript) as [t [c | e]];
    reflexivity.
Qed.

Lemma fallback_outcome transcript :
  outcome (fallback transcript) = Ok (chosen transcript).
Proof.
  rewrite fallback_cases. unfold chosen, context_of, retrieve.
  destruct (outcome (rag_retrieve embeddings_create index_query transcript));
    reflexivity.
Qed.

(** What [handle_text_message] does after the barge-in handler, by the
    result of the extraction. *)
Lemma turn_cases decoded :
  turn decoded =
  match _extract_transcript_from_deepgram decoded with
  | Raise e => ([], Raise e)
  | Ok ([], _, _) => ([], Ok tt)
  | Ok (transcript, false, _) => ([Print (LogPartial transcript)], Ok tt)
  | Ok (transcript, true, response_id) =>
      (Print (LogFinal transcript)
         :: events (fallback transcript)
         ++ [Print LogSending;
             StsSend (response_create response_id
                        (prompt transcript (chosen transcript)))],
       Ok tt)
  end.
Proof.
  unfold turn, turn_controller.
  destruct (_extract_transcript_from_deepgram decoded)
    as [[[transcript is_final] response_id] | e]; [| reflexivity].
  unfold lift at 1. unfold bind at 1.
  destruct transcript as [| c transcript]; [reflexivity |].
  destruct is_final; [| reflexivity].
  cbn [negb].
  pose proof (fallback_outcome (c :: transcript)) as Hout.
  unfold fallback in Hout.
  unfold emit at 1. unfold bind at 1.
  rewrite (bind_ok _ _ Hout). reflexivity.
Qed.

Lemma retrieval_is_not_twilio (evs : list event) :
  forallb is_retrieval evs = true -> existsb is_twilio_send evs = false.
Proof.
  induction evs as [| e evs IH]; [reflexivity |].
  simpl. intros H. apply andb_prop in H as [He Hr].
  rewrite (IH Hr). destruct e; try discriminate; reflexivity.
Qed.

Lemma existsb_false_filter {A} (f : A -> bool) (l : list A) :
  existsb f l = false -> filter f l = [].
Proof.
  induction l as [| a l IH]; [reflexivity |].
  simpl. intros H. apply orb_false_elim in H as [Ha Hl].
  rewrite Ha. exact (IH Hl).
Qed.

Lemma fallback_events transcript :
  events (fallback transcript) =
  events (retrieve transcript) ++
  match outcome (retrieve transcript) with
  | Ok _ => []
  | Raise e => [Print (LogRagError e)]
  end.
Proof.
  rewrite fallback_cases.
  destruct (outcome (retrieve transcript)); simpl;
    [rewrite app_nil_r |]; reflexivity.
Qed.

(** Nothing after the barge-in handler writes to the telephony
    transport. *)
Lemma turn_no_twilio decoded :
  existsb is_twilio_send (events (turn decoded)) = false.
Proof.
  rewrite turn_cases.
  destruct (_extract_transcript_from_deepgram decoded)
    as [[[[| c transcript] [|]] response_id] | e]; try reflexivity.
  cbn [events fst existsb is_twilio_send orb].
  rewrite existsb_app, fallback_events, existsb_app.
  rewrite (retrieval_is_not_twilio _ (rag_retrieve_events _)).
  destruct (outcome (retrieve (c :: transcript))); reflexivity.
Qed.

(** [handle_text_message] is the barge-in handler, then the turn
    controller. *)
Lemma handle_cases decoded sid :
  handle decoded sid =
  match get decoded (py "type") with
  | Raise e => ([], Raise e)
  | Ok ty =>
      ((if eq_str ty (py "UserStartedSpeaking")
        then [TwilioSend (clear_message sid)] else [])
         ++ events (turn decoded),
       outcome (turn decoded))
  end.
Proof.
  unfold handle, handle_text_message, handle_barge_in.
  destruct (get decoded (py "type")) as [ty | e]; [| reflexivity].
  unfold lift at 1. unfold bind at 2. cbn [app].
  fold (turn decoded).
  destruct (eq_str ty (py "UserStartedSpeaking"));
    unfold emit, ret, bind; destruct (turn decoded); reflexivity.
Qed.

(** C3.  When the type of a decoded control event is
    "UserStartedSpeaking", [handle_text_message] first sends the clear
    message for the stream to the telephony transport; everything the
    transcript logic does comes after it, whatever the extraction
    returns or raises, and no other message goes to the telephony
    transport: exactly one clear is sent. *)
Theorem barge_in_clears_before_transcript decoded sid :
  get decoded (py "type") = Ok (JStr (py "UserStartedSpeaking")) ->
  events (handle decoded sid) =
    TwilioSend (clear_message sid) :: events (turn decoded) /\
  outcome (handle decoded sid) = outcome (turn decoded) /\
  filter is_twilio_send (events (handle decoded sid)) =
    [TwilioSend (clear_message sid)].
Proof.
  intros Hty. rewrite handle_cases, Hty.
  change (eq_str (JStr (py "UserStartedSpeaking")) (py "UserStartedSpeaking"))
    with true.
  cbn [events outcome fst snd app].
  repeat split.
  cbn [filter is_twilio_send].
  rewrite (existsb_false_filter _ _ (turn_no_twilio decoded)). reflexivity.
Qed.

(** The extraction on a dict whose [is_final] is [false]: unless the
    alternatives block sets the flag, the result is not final. *)
Lemma extract_not_final fields transcript is_final response_id :
  lookup (py "is_final") fields = Some (JBool false) ->
  truthy (direct_transcript fields) = true \/ alternative_final fields = false ->
  _extract_transcript_from_deepgram (JObj fields)
    = Ok (transcript, is_final, response_id) ->
  is_final = false.
Proof.
  intros Hfinal Hno.
  assert (Hkey : has_key (py "is_final") fields = true)
    by (unfold has_key; rewrite Hfinal; reflexivity).
  assert (Hval : field fields (py "is_final") = JBool false)
    by (unfold field; rewrite Hfinal; reflexivity).
  unfold _extract_transcript_from_deepgram.
  rewrite !get_dict. cbn [rbind]. fold (direct_transcript fields).
  rewrite Hkey, Hval.
  destruct (truthy (direct_transcript fields)) eqn:Hdirect; cbn [negb andb].
  - destruct (py_strip (direct_transcript fields)); cbn [rbind];
      intros H; inversion H; reflexivity.
  - destruct Hno as [Hno | Hno]; [discriminate |].
    revert Hno. unfold alternative_final, has_key, field.
    destruct (lookup (py "alternatives") fields) as [alts |]; intros Hno.
    + destruct (truthy alts) eqn:Halts.
      * destruct alts as [| b | z | f | str | items | obj];
          try (cbn [subscript0 rbind]; intros H; discriminate H).
        -- destruct str as [| c str]; [discriminate Halts |].
           cbn [subscript0 rbind get]. intros H; discriminate H.
        -- destruct items as [| alt0 rest]; [discriminate Halts |].
           cbn [subscript0 rbind].
           destruct alt0 as [| b | z | f | str | items | alt];
             try (cbn [get rbind]; intros H; discriminate H).
           rewrite !get_dict. unfold field. cbn [rbind]. rewrite Hno.
           match goal with
           | |- context [py_strip ?t] => destruct (py_strip t)
           end; cbn [rbind]; intros H; inversion H; reflexivity.
      * destruct (py_strip (direct_transcript fields)); cbn [rbind];
          intros H; inversion H; reflexivity.
    + destruct (py_strip (direct_transcript fields)); cbn [rbind];
        intros H; inversion H; reflexivity.
Qed.

Lemma barge_in_is_quiet ty sid :
  let evs := if eq_str ty (py "UserStartedSpeaking")
             then [TwilioSend (clear_message sid)] else [] in
  existsb is_retrieval evs = false /\ existsb is_injection evs = false.
Proof. destruct (eq_str ty (py "UserStartedSpeaking")); split; reflexivity. Qed.

(** A retrieval request or an injection in the events of
    [handle_text_message] comes from a final, non-empty transcript. *)
Lemma retrieval_needs_final decoded sid :
  existsb is_retrieval (events (handle decoded sid)) = true \/
  existsb is_injection (events (handle decoded sid)) = true ->
  exists transcript response_id,
    _extract_transcript_from_deepgram decoded
      = Ok (transcript, true, response_id) /\
    transcript <> [].
Proof.
  rewrite handle_cases.
  destruct (get decoded (py "type")) as [ty | e];
    [| intros [H | H]; discriminate].
  cbn [events fst]. rewrite !existsb_app.
  destruct (barge_in_is_quiet ty sid) as [-> ->]. cbn [orb].
  rewrite turn_cases.
  destruct (_extract_transcript_from_deepgram decoded)
    as [[[[| c transcript] [|]] response_id] | e];
    try (intros [H | H]; discriminate).
  intros _. exists (c :: transcript), response_id.
  split; [reflexivity | discriminate].
Qed.

(** C4, as the code has it.  A decoded control event carrying
    [is_final = false] never reaches the Knowledge Retriever and never
    causes an injection, provided its text comes from the direct fields
    or the first alternatives entry does not flag it final; and whatever
    the event, retrieval and injection only happen for a final,
    non-empty transcript. *)
Theorem partial_never_retrieves :
  (forall fields sid,
      lookup (py "is_final") fields = Some (JBool false) ->
      truthy (direct_transcript fields) = true \/
      alternative_final fields = false ->
      existsb is_retrieval (events (handle (JObj fields) sid)) = false /\
      existsb is_injection (events (handle (JObj fields) sid)) = false) /\
  (forall decoded sid,
      existsb is_retrieval (events (handle decoded sid)) = true \/
      existsb is_injection (events (handle decoded sid)) = true ->
      exists transcript response_id,
        _extract_transcript_from_deepgram decoded
          = Ok (transcript, true, response_id) /\
        transcript <> []).
Proof.
  split; [| exact retrieval_needs_final].
  intros fields sid Hfinal Hno.
  destruct (existsb is_retrieval (events (handle (JObj fields) sid))) eqn:Hr.
  - destruct (retrieval_needs_final (JObj fields) sid (or_introl Hr))
      as (t & rid & Hex & _).
    discriminate (extract_not_final _ Hfinal Hno Hex).
  - split; [reflexivity |].
    destruct (existsb is_injection (events (handle (JObj fields) sid))) eqn:Hi;
      [| reflexivity].
    destruct (retrieval_needs_final (JObj fields) sid (or_intror Hi))
      as (t & rid & Hex & _).
    discriminate (extract_not_final _ Hfinal Hno Hex).
Qed.

(** *** [str.strip] on the prompt *)

Lemma lstrip_spaces ws s :
  forallb isspace ws = true -> lstrip (ws ++ s) = lstrip s.
Proof.
  induction ws as [| w ws IH]; [reflexivity |].
  simpl. intros H. apply andb_prop in H as [Hw Hws].
  rewrite Hw. exact (IH Hws).
Qed.

Lemma lstrip_stop c s : isspace c = false -> lstrip (c :: s) = c :: s.
Proof. intros H. simpl. rewrite H. reflexivity. Qed.

Lemma forallb_rev {A} (f : A -> bool) l :
  forallb f l = true -> forallb f (rev l) = true.
Proof.
  rewrite !forallb_forall. intros H x Hx. apply H, in_rev, Hx.
Qed.

Lemma rstrip_trim s c ws :
  isspace c = false -> forallb isspace ws = true ->
  rstrip (s ++ c :: ws) = s ++ [c].
Proof.
  intros Hc Hws. unfold rstrip.
  rewrite rev_app_distr. cbn [rev]. rewrite <- !app_assoc. cbn [app].
  rewrite lstrip_spaces by (apply forallb_rev; exact Hws).
  rewrite lstrip_stop by exact Hc.
  cbn [rev]. rewrite rev_involutive. reflexivity.
Qed.

Lemma strip_trim ws1 a m b ws2 :
  forallb isspace ws1 = true -> isspace a = false ->
  isspace b = false -> forallb isspace ws2 = true ->
  strip (ws1 ++ a :: m ++ b :: ws2) = a :: m ++ [b].
Proof.
  intros H1 Ha Hb H2. unfold strip.
  rewrite lstrip_spaces by exact H1.
  rewrite lstrip_stop by exact Ha.
  apply (@rstrip_trim (a :: m) b ws2 Hb H2).
Qed.

Lemma prompt_head_shape :
  prompt_head = [10%N] ++ 89%N :: skipn 2 prompt_head.
Proof. vm_compute. reflexivity. Qed.

Lemma prompt_tail_shape :
  prompt_tail =
  firstn (length prompt_tail - 3) prompt_tail ++ 46%N :: [10%N; 10%N].
Proof. vm_compute. reflexivity. Qed.

(** [instructions.strip()] removes the first newline and the last two
    of the f-string and nothing of the transcript or the context. *)
Lemma strip_prompt transcript context :
  strip (prompt transcript context) =
  89%N :: (skipn 2 prompt_head ++ transcript ++ prompt_middle ++ context
             ++ firstn (length prompt_tail - 3) prompt_tail) ++ [46%N].
Proof.
  unfold prompt.
  pose proof prompt_head_shape as Hh. pose proof prompt_tail_shape as Ht.
  set (H := skipn 2 prompt_head) in *.
  set (T := firstn (length prompt_tail - 3) prompt_tail) in *.
  rewrite Hh, Ht.
  replace (([10%N] ++ 89%N :: H) ++ transcript ++ prompt_middle ++ context
             ++ T ++ 46%N :: [10%N; 10%N])
    with ([10%N] ++ 89%N :: (H ++ transcript ++ prompt_middle ++ context ++ T)
                 ++ 46%N :: [10%N; 10%N])
    by (cbn [app]; rewrite <- !app_assoc; reflexivity).
  apply strip_trim; reflexivity.
Qed.

Lemma prompt_contains_context transcript context :
  substring context (strip (prompt transcript context)).
Proof.
  rewrite strip_prompt.
  exists (89%N :: skipn 2 prompt_head ++ transcript ++ prompt_middle),
         (firstn (length prompt_tail - 3) prompt_tail ++ [46%N]).
  cbn [app]. rewrite <- !app_assoc. reflexivity.
Qed.

Lemma extract_ok_dict decoded r :
  _extract_transcript_from_deepgram decoded = Ok r ->
  exists fields, decoded = JObj fields.
Proof.
  destruct decoded; try discriminate. eauto.
Qed.

(** C5.  For a final, non-empty transcript on which [rag_retrieve]
    raises, [handle_text_message] returns normally: it prints the error,
    takes "No relevant context." as the context and still sends the
    response.create message to the agent transport, with the response
    id of the event and instructions that contain the sentinel. *)
Theorem retrieval_failure_falls_back decoded sid transcript response_id e :
  _extract_transcript_from_deepgram decoded
    = Ok (transcript, true, response_id) ->
  transcript <> [] ->
  outcome (retrieve transcript) = Raise e ->
  handle decoded sid =
    (events (handle_barge_in decoded sid)
       ++ Print (LogFinal transcript)
       :: events (retrieve transcript)
       ++ [Print (LogRagError e); Print LogSending;
           StsSend (response_create response_id
                      (prompt transcript NO_CONTEXT))],
     Ok tt) /\
  chosen transcript = NO_CONTEXT /\
  exists instructions,
    subscript (response_create response_id (prompt transcript NO_CONTEXT))
              (py "instructions") = Ok (JStr instructions) /\
    substring NO_CONTEXT instructions.
Proof.
  intros Hex Hne Hraise.
  assert (Hctx : chosen transcript = NO_CONTEXT).
  { unfold chosen, context_of. unfold retrieve in Hraise.
    rewrite Hraise. reflexivity. }
  split; [| split; [exact Hctx |]].
  - destruct (extract_ok_dict _ Hex) as [fields ->].
    rewrite handle_cases, turn_cases, Hex.
    unfold handle_barge_in. rewrite get_dict.
    destruct transcript as [| c transcript]; [congruence |].
    rewrite fallback_events, Hraise, Hctx.
    cbn [events outcome fst snd lift bind].
    destruct (eq_str (field fields (py "type")) (py "UserStartedSpeaking"));
      cbn [emit ret fst app]; rewrite <- ?app_assoc; reflexivity.
  - exists (strip (prompt transcript NO_CONTEXT)).
    split; [reflexivity | apply prompt_contains_context].
Qed.

(** *** [sts_receiver] *)

Lemma bind_assoc {A B C} (m : M A) (f : A -> M B) (g : B -> M C) :
  bind (bind m f) g = bind m (fun a => bind (f a) g).
Proof.
  destruct m as [t [a | e]]; [| reflexivity].
  unfold bind at 2 3. destruct (f a) as [t' [b | e']].
  - unfold bind. destruct (g b). rewrite app_assoc. reflexivity.
  - reflexivity.
Qed.

Lemma bind_ret_l {A B} (a : A) (k : A -> M B) : bind (ret a) k = k a.
Proof. unfold bind, ret. destruct (k a). reflexivity. Qed.

(** The loop over a list of messages is the loop over its first part,
    then over the rest. *)
Lemma receive_app sid before after :
  receive sid (before ++ after) =
  bind (receive sid before) (fun _ => receive sid after).
Proof.
  unfold receive. induction before as [| m before IH]; cbn [app sts_receiver].
  - rewrite bind_ret_l. reflexivity.
  - rewrite IH, bind_assoc. reflexivity.
Qed.

Lemma receive_malformed sid s rest :
  json_loads s = None ->
  receive sid (Text s :: rest) = ([], Raise ValueError).
Proof.
  intros Hbad. unfold receive. cbn [sts_receiver sts_receive].
  rewrite Hbad. reflexivity.
Qed.

(** C7, as the code has it.  A text message of the agent transport on
    which [json.loads] raises ends [sts_receiver] with that exception:
    nothing is printed or sent for it, and no later message is
    handled. *)
Theorem malformed_agent_text_ends_loop sid before s rest :
  json_loads s = None ->
  outcome (receive sid before) = Ok tt ->
  receive sid (before ++ Text s :: rest) =
    (events (receive sid before), Raise ValueError).
Proof.
  intros Hbad Hok.
  rewrite receive_app, (bind_ok _ _ Hok), (receive_malformed sid rest Hbad).
  cbn [events outcome fst snd]. rewrite app_nil_r. reflexivity.
Qed.

(** *** [rag_retrieve] *)

Lemma collect_contexts_length matches :
  length (collect_contexts matches) <= length matches.
Proof.
  induction matches as [| m matches IH]; [apply le_n |].
  cbn [collect_contexts length].
  destruct (metadata m) as [[| kv fields] |]; try lia.
  destruct (lookup (py "answer") (kv :: fields)); cbn [length]; lia.
Qed.

Lemma as_strings_length items : forall parts,
  as_strings items = Ok parts -> length parts = length items.
Proof.
  induction items as [| item items IH]; intros parts H.
  - inversion H. reflexivity.
  - destruct item; try discriminate H. cbn [as_strings] in H.
    destruct (as_strings items) as [r |]; [| discriminate H].
    inversion H. cbn [length]. rewrite (IH r eq_refl). reflexivity.
Qed.

(** [rag_retrieve] by the answers of its two services. *)
Lemma rag_retrieve_cases query :
  retrieve query =
  match embeddings_create query with
  | None => ([EmbeddingsCreate query], Raise ServiceError)
  | Some v =>
      match index_query v 3 with
      | None => ([EmbeddingsCreate query; IndexQuery v 3], Raise ServiceError)
      | Some matches =>
          ([EmbeddingsCreate query; IndexQuery v 3],
           match collect_contexts matches with
           | [] => Ok NO_CONTEXT
           | _ :: _ => join_contexts (collect_contexts matches)
           end)
      end
  end.
Proof.
  unfold retrieve, rag_retrieve, service.
  destruct (embeddings_create query) as [v |]; [| reflexivity].
  simpl. destruct (index_query v 3) as [matches |]; [| reflexivity].
  simpl. destruct (collect_contexts matches) as [| c cs]; [reflexivity |].
  simpl. destruct (join_contexts (c :: cs)); reflexivity.
Qed.

(** C8.  With an index that returns at most [top_k] matches, a query on
    which [rag_retrieve] returns gets one string: the answers of at most
    3 matches joined with newlines, or "No relevant context." when no
    match gave a snippet. *)
Theorem retrieved_context_shape query context :
  (forall v k matches, index_query v k = Some matches -> length matches <= k) ->
  outcome (retrieve query) = Ok context ->
  exists v matches snippets,
    embeddings_create query = Some v /\
    index_query v 3 = Some matches /\
    as_strings (collect_contexts matches) = Ok snippets /\
    length snippets <= 3 /\
    context = match snippets with
              | [] => NO_CONTEXT
              | _ :: _ => str_join newline snippets
              end.
Proof.
  intros Htop. rewrite rag_retrieve_cases.
  destruct (embeddings_create query) as [v |]; [| discriminate].
  destruct (index_query v 3) as [matches |] eqn:Hq; [| discriminate].
  cbn [outcome snd]. intros Hctx.
  pose proof (collect_contexts_length matches) as Hlen.
  pose proof (Htop _ _ _ Hq) as Hk.
  destruct (collect_contexts matches) as [| c cs] eqn:Hc.
  - exists v, matches, []. inversion Hctx. rewrite Hc.
    repeat split; [exact Hq | cbn [length]; lia].
  - unfold join_contexts in Hctx.
    destruct (as_strings (c :: cs)) as [parts |] eqn:Hparts;
      [| discriminate Hctx].
    cbn [rbind] in Hctx. inversion Hctx.
    pose proof (as_strings_length _ Hparts) as Hpl.
    exists v, matches, parts. rewrite Hc. repeat split.
    + exact Hq.
    + exact Hparts.
    + cbn [length] in *. lia.
    + destruct parts; [discriminate Hpl | reflexivity].
Qed.

Lemma collect_contexts_map matches :
  collect_contexts matches = map answer_of (filter has_answer matches).
Proof.
  induction matches as [| m matches IH]; [reflexivity |].
  cbn [collect_contexts filter]. unfold has_answer at 1, has_key.
  destruct (metadata m) as [[| kv fields] |] eqn:Hm; try exact IH.
  destruct (lookup (py "answer") (kv :: fields)) as [answer |] eqn:Hl;
    [| exact IH].
  cbn [map]. unfold answer_of at 1, field. rewrite Hm, Hl, IH. reflexivity.
Qed.

Lemma as_strings_strings snippets : as_strings (map JStr snippets) = Ok snippets.
Proof.
  induction snippets as [| s snippets IH]; [reflexivity |].
  cbn [map as_strings]. rewrite IH. reflexivity.
Qed.

(** C10.  On a successful index query, the contexts [rag_retrieve]
    collects are the "answer" entries of the matches whose metadata has
    one, in the order of the matches, and of no other match; the result
    is their join (for string answers, joined with newlines), and when
    matches came back but none has an "answer" entry it is
    "No relevant context.". *)
Theorem answerless_matches_give_sentinel query v matches :
  embeddings_create query = Some v ->
  index_query v 3 = Some matches ->
  collect_contexts matches = map answer_of (filter has_answer matches) /\
  outcome (retrieve query) =
    match map answer_of (filter has_answer matches) with
    | [] => Ok NO_CONTEXT
    | _ :: _ => join_contexts (map answer_of (filter has_answer matches))
    end /\
  (forall snippets,
      map answer_of (filter has_answer matches) = map JStr snippets ->
      snippets <> [] ->
      retrieve query =
        ([EmbeddingsCreate query; IndexQuery v 3],
         Ok (str_join newline snippets))) /\
  (matches <> [] -> existsb has_answer matches = false ->
   retrieve query = ([EmbeddingsCreate query; IndexQuery v 3], Ok NO_CONTEXT)).
Proof.
  intros He Hq. rewrite rag_retrieve_cases, He, Hq.
  rewrite (collect_contexts_map matches).
  split; [reflexivity |]. split; [reflexivity |]. split.
  - intros snippets Hs Hne. rewrite Hs.
    destruct snippets as [| s0 snippets]; [congruence |].
    unfold join_contexts. rewrite as_strings_strings. reflexivity.
  - intros _ Hnone. rewrite (existsb_false_filter _ _ Hnone). reflexivity.
Qed.

End AgentProperties.

(** *** Runs with the sample services *)

(** C3 on a bare "UserStartedSpeaking" event. *)
Lemma barge_in_clears_before_transcript_witness :
  events (handle_text_message sample_embeddings sample_index
                              speaking_event (JStr (py "A"))) =
    TwilioSend (clear_message (JStr (py "A")))
      :: events (turn_controller sample_embeddings sample_index speaking_event) /\
  outcome (handle_text_message sample_embeddings sample_index
                               speaking_event (JStr (py "A"))) =
    outcome (turn_controller sample_embeddings sample_index speaking_event) /\
  filter is_twilio_send
         (events (handle_text_message sample_embeddings sample_index
                                      speaking_event (JStr (py "A")))) =
    [TwilioSend (clear_message (JStr (py "A")))].
Proof.
  apply (@barge_in_clears_before_transcript sample_embeddings sample_index
           speaking_event (JStr (py "A"))).
  reflexivity.
Defined.

(** C4 fails as stated: an event with [is_final = false] whose first
    alternative is flagged final reaches the retriever and is answered
    with an injection. *)
Lemma alternative_overrides_is_final :
  get override_event (py "is_final") = Ok (JBool false) /\
  _extract_transcript_from_deepgram override_event = Ok (py "hi", true, JNull) /\
  existsb is_retrieval
          (events (handle_text_message sample_embeddings sample_index
                                       override_event (JStr (py "A")))) = true /\
  existsb is_injection
          (events (handle_text_message sample_embeddings sample_index
                                       override_event (JStr (py "A")))) = true.
Proof. repeat split; vm_compute; reflexivity. Qed.

(** C4 as amended, on a partial transcript. *)
Lemma partial_never_retrieves_witness :
  existsb is_retrieval
          (events (handle_text_message sample_embeddings sample_index
                                       (JObj partial_fields) (JStr (py "A")))) = false /\
  existsb is_injection
          (events (handle_text_message sample_embeddings sample_index
                                       (JObj partial_fields) (JStr (py "A")))) = false.
Proof.
  apply (proj1 (@partial_never_retrieves sample_embeddings sample_index)
               partial_fields (JStr (py "A"))).
  - reflexivity.
  - left. reflexivity.
Defined.

(** C5 with the embedding service down. *)
Lemma retrieval_failure_falls_back_witness :
  handle_text_message failing_embeddings sample_index final_event (JStr (py "A")) =
    (events (handle_barge_in final_event (JStr (py "A")))
       ++ Print (LogFinal (py "What courses do you offer?"))
       :: events (rag_retrieve failing_embeddings sample_index
                               (py "What courses do you offer?"))
       ++ [Print (LogRagError ServiceError); Print LogSending;
           StsSend (response_create (JStr (py "r1"))
                      (prompt (py "What courses do you offer?") NO_CONTEXT))],
     Ok tt) /\
  context_of failing_embeddings sample_index (py "What courses do you offer?")
    = NO_CONTEXT /\
  exists instructions,
    subscript (response_create (JStr (py "r1"))
                 (prompt (py "What courses do you offer?") NO_CONTEXT))
              (py "instructions") = Ok (JStr instructions) /\
    substring NO_CONTEXT instructions.
Proof.
  apply (@retrieval_failure_falls_back failing_embeddings sample_index
           final_event (JStr (py "A")) (py "What courses do you offer?")
           (JStr (py "r1")) ServiceError).
  - vm_compute. reflexivity.
  - discriminate.
  - reflexivity.
Defined.

(** C7 fails as stated: the malformed text is not skipped, the audio
    frame behind it is never relayed. *)
Lemma malformed_text_is_not_skipped :
  sample_loads (py "{") = None /\
  sts_receiver sample_embeddings sample_index sample_loads sample_b64encode
               (JStr (py "A")) [Text (py "{"); Binary (zeros 3)]
    = ([], Raise ValueError) /\
  sts_receiver sample_embeddings sample_index sample_loads sample_b64encode
               (JStr (py "A")) [Binary (zeros 3)]
    = ([TwilioSend (media_message sample_b64encode (JStr (py "A")) (zeros 3))],
       Ok tt).
Proof. repeat split; vm_compute; reflexivity. Qed.

(** C7 as amended: an audio frame, the malformed text, an audio frame. *)
Lemma malformed_agent_text_ends_loop_witness :
  sts_receiver sample_embeddings sample_index sample_loads sample_b64encode
               (JStr (py "A"))
               ([Binary (zeros 3)] ++ Text (py "{") :: [Binary (zeros 3)]) =
    (events (sts_receiver sample_embeddings sample_index sample_loads
                          sample_b64encode (JStr (py "A")) [Binary (zeros 3)]),
     Raise ValueError).
Proof.
  apply (@malformed_agent_text_ends_loop sample_embeddings sample_index
           sample_loads sample_b64encode (JStr (py "A")) [Binary (zeros 3)]
           (py "{") [Binary (zeros 3)]).
  - reflexivity.
  - reflexivity.
Defined.

Lemma sample_index_top_k v k matches :
  sample_index v k = Some matches -> length matches <= k.
Proof.
  unfold sample_index. intros H. inversion H. apply firstn_le_length.
Qed.

(** C8 on the sample index: two of its three matches carry an answer. *)
Lemma retrieved_context_shape_witness :
  exists v matches snippets,
    sample_embeddings (py "What courses do you offer?") = Some v /\
    sample_index v 3 = Some matches /\
    as_strings (collect_contexts matches) = Ok snippets /\
    length snippets <= 3 /\
    py "Course A info" ++ newline ++ py "Course B info" =
      match snippets with
      | [] => NO_CONTEXT
      | _ :: _ => str_join newline snippets
      end.
Proof.
  apply (@retrieved_context_shape sample_embeddings sample_index
           (py "What courses do you offer?")
           (py "Course A info" ++ newline ++ py "Course B info")).
  - exact sample_index_top_k.
  - vm_compute. reflexivity.
Defined.

(** C10 on the sample index, where the first and the third match carry
    an answer and the second does not, and on an index whose two entries
    carry none. *)
Lemma answerless_matches_give_sentinel_witness :
  rag_retrieve sample_embeddings sample_index (py "Courses?") =
    ([EmbeddingsCreate (py "Courses?"); IndexQuery [S754_zero false] 3],
     Ok (py "Course A info" ++ newline ++ py "Course B info")) /\
  rag_retrieve sample_embeddings answerless_index (py "Pricing?") =
    ([EmbeddingsCreate (py "Pricing?"); IndexQuery [S754_zero false] 3],
     Ok NO_CONTEXT).
Proof.
  split.
  - apply (proj1 (proj2 (proj2
             (@answerless_matches_give_sentinel sample_embeddings
                sample_index (py "Courses?") [S754_zero false] sample_matches
                eq_refl eq_refl)))
             [py "Course A info"; py "Course B info"]).
    + reflexivity.
    + discriminate.
  - apply (proj2 (proj2 (proj2
             (@answerless_matches_give_sentinel sample_embeddings
                answerless_index (py "Pricing?") [S754_zero false]
                [ {| metadata := Some [(py "question", JStr (py "Pricing?"))] |};
                  {| metadata := None |} ]
                eq_refl eq_refl)))).
    + discriminate.
    + reflexivity.
Defined.

(** ** The three coroutines together *)

Section RelayProperties.

Variable json_loads : pystr -> option json.
Variable b64decode : pystr -> option (list byte).
Variable b64encode : list byte -> pystr.
Variable embeddings_create : pystr -> option vector.
Variable index_query : vector -> nat -> option (list Match).

Let next := step json_loads b64decode b64encode embeddings_create index_query.
Let reach := steps json_loads b64decode b64encode embeddings_create index_query.
Let exec := run json_loads b64decode b64encode embeddings_create index_query.

(** A schedule is an execution of the event loop. *)
Lemma run_steps schedule : forall c, reach c (exec schedule c).
Proof.
  unfold reach, exec.
  induction schedule as [| t schedule IH]; intros c; cbn [run].
  - apply steps_refl.
  - destruct (step_task json_loads b64decode b64encode embeddings_create
                        index_query t c) as [c' |] eqn:Hs.
    + eapply steps_next; [econstructor; exact Hs | apply IH].
    + apply IH.
Qed.







End RelayProperties.

(** *** The sample session *)

Lemma sample_stop : stop_event sample_loads stop_text.
Proof. exists stop_json. split; vm_compute; reflexivity. Defined.




(** * Further properties *)

(** ** [twilio_receiver] on arbitrary messages *)

(** The frames cut do not depend on the queue they are appended to. *)
Lemma drain_queue inbuffer queue :
  drain inbuffer queue =
  (fst (drain inbuffer []), queue ++ snd (drain inbuffer [])).
Proof.
  remember (length inbuffer) as n eqn:Hn.
  revert inbuffer queue Hn.
  induction n as [n IH] using lt_wf_ind; intros inbuffer queue Hn.
  destruct (le_lt_dec BUFFER_SIZE (length inbuffer)) as [Hge | Hlt].
  - pose proof BUFFER_SIZE_pos as Hpos.
    assert (Hshorter : length (skipn BUFFER_SIZE inbuffer) < n)
      by (rewrite length_skipn; lia).
    rewrite (drain_ge inbuffer queue Hge), (drain_ge inbuffer [] Hge).
    rewrite (IH _ Hshorter _ (queue ++ [firstn BUFFER_SIZE inbuffer]) eq_refl).
    rewrite (IH _ Hshorter _ ([] ++ [firstn BUFFER_SIZE inbuffer]) eq_refl).
    cbn [fst snd app]. rewrite <- app_assoc. reflexivity.
  - rewrite !drain_lt by exact Hlt. cbn [fst snd]. rewrite app_nil_r. reflexivity.
Qed.

Lemma drain_frames_whole inbuffer :
  Forall (fun f => length f = BUFFER_SIZE) (snd (drain inbuffer [])).
Proof.
  destruct (drain_spec inbuffer []) as (frames & rest & Hd & _ & Hall & _).
  rewrite Hd. exact Hall.
Qed.

Lemma drain_conserves inbuffer :
  concat (snd (drain inbuffer [])) ++ fst (drain inbuffer []) = inbuffer.
Proof.
  destruct (drain_spec inbuffer []) as (frames & rest & Hd & Hcat & _ & _).
  rewrite Hd. exact Hcat.
Qed.

Section ReceiverExtras.

Variable json_loads : pystr -> option json.
Variable b64decode : pystr -> option (list byte).

Let receiver := twilio_receiver json_loads b64decode.
Let one_step := twilio_step json_loads b64decode.
Let wire_of := decodes_to json_loads b64decode.

(** Whatever the message, one iteration either ends the loop with one more
    line printed and nothing else changed, or goes on. *)
Lemma twilio_step_shape message st :
  (exists l, one_step message st = (print_line st l, Break)) \/
  (exists chunk sids, one_step message st = (advanced st chunk sids, Continue)).
Proof.
  unfold one_step, twilio_step, twilio_try, loads.
  destruct (json_loads message) as [data |]; cbn [rbind]; [| left; eauto].
  destruct (subscript data (py "event")) as [ev | e]; cbn [rbind];
    [| left; eauto].
  destruct (eq_str ev (py "start")).
  { destruct (subscript data (py "start")) as [start | e]; cbn [rbind];
      [| left; eauto].
    destruct (subscript start (py "streamSid")) as [sid | e]; cbn [rbind];
      [| left; eauto].
    right. exists [], [sid]. unfold advanced. rewrite app_nil_r. reflexivity. }
  destruct (eq_str ev (py "media")).
  { destruct (subscript data (py "media")) as [media | e]; cbn [rbind];
      [| left; eauto].
    destruct (subscript media (py "payload")) as [payload | e]; cbn [rbind];
      [| left; eauto].
    destruct (decode_payload b64decode payload) as [chunk | e]; cbn [rbind];
      [| left; eauto].
    right. exists chunk, []. unfold advanced. cbn. rewrite app_nil_r.
    reflexivity. }
  destruct (eq_str ev (py "stop")); [left; eauto |].
  right. exists [], []. unfold advanced. cbn. rewrite !app_nil_r. reflexivity.
Qed.

Lemma advanced_keeps_whole st chunk sids :
  Forall (fun f => length f = BUFFER_SIZE) (audio_queue st) ->
  length (inbuffer (advanced st chunk sids)) < BUFFER_SIZE /\
  Forall (fun f => length f = BUFFER_SIZE) (audio_queue (advanced st chunk sids)).
Proof.
  intros Hall. unfold advanced. cbn [inbuffer audio_queue]. split.
  - apply drain_leaves_short.
  - rewrite drain_queue. cbn [snd]. apply Forall_app. split.
    + exact Hall.
    + apply drain_frames_whole.
Qed.

(** X1.  Whatever Twilio sends, well formed or not, [twilio_receiver]
    leaves less than one frame in its buffer and only frames of 3200 bytes
    in the audio queue. *)
Theorem receiver_keeps_frames_whole messages : forall st,
  length (inbuffer st) < 3200 ->
  Forall (fun f => length f = 3200) (audio_queue st) ->
  length (inbuffer (receiver messages st)) < 3200 /\
  Forall (fun f => length f = 3200) (audio_queue (receiver messages st)).
Proof.
  rewrite <- BUFFER_SIZE_val. unfold receiver.
  induction messages as [| message messages IH]; intros st Hshort Hall.
  - split; assumption.
  - cbn [twilio_receiver].
    destruct (twilio_step_shape message st) as [[l Hs] | (chunk & sids & Hs)];
      unfold one_step in Hs; rewrite Hs.
    + split; assumption.
    + destruct (advanced_keeps_whole st chunk sids Hall) as [Hs' Ha'].
      apply IH; assumption.
Qed.

(** X2.  Whatever Twilio sends, [twilio_receiver] only appends: what was
    in the audio queue, in the stream-identifier queue and on the output
    stays in front, and the bytes that were buffered stay in front of the
    bytes cut into frames or buffered later. *)
Theorem receiver_only_appends messages : forall st,
  exists frames sids ls accepted,
    audio_queue (receiver messages st) = audio_queue st ++ frames /\
    streamsid_queue (receiver messages st) = streamsid_queue st ++ sids /\
    printed (receiver messages st) = printed st ++ ls /\
    concat frames ++ inbuffer (receiver messages st) = inbuffer st ++ accepted.
Proof.
  unfold receiver.
  induction messages as [| message messages IH]; intros st.
  - exists [], [], [], []. cbn [twilio_receiver concat app].
    rewrite !app_nil_r. repeat split.
  - cbn [twilio_receiver].
    destruct (twilio_step_shape message st) as [[l Hs] | (chunk & sids & Hs)];
      unfold one_step in Hs; rewrite Hs.
    + exists [], [], [l], []. cbn [print_line audio_queue streamsid_queue
                                  printed inbuffer concat app].
      rewrite !app_nil_r. repeat split.
    + destruct (IH (advanced st chunk sids))
        as (frames & sids' & ls & accepted & Hq & Hi & Hp & Hb).
      assert (Ha : audio_queue (advanced st chunk sids) =
                   audio_queue st ++ snd (drain (inbuffer st ++ chunk) []))
        by (unfold advanced; cbn [audio_queue]; rewrite drain_queue; reflexivity).
      assert (Hr : inbuffer (advanced st chunk sids) =
                   fst (drain (inbuffer st ++ chunk) []))
        by (unfold advanced; cbn [inbuffer]; rewrite drain_queue; reflexivity).
      rewrite Ha in Hq. rewrite Hr in Hb.
      exists (snd (drain (inbuffer st ++ chunk) []) ++ frames),
             (sids ++ sids'), ls, (chunk ++ accepted).
      split; [rewrite Hq, app_assoc; reflexivity |].
      split; [rewrite Hi; unfold advanced; cbn [streamsid_queue];
              rewrite app_assoc; reflexivity |].
      split; [exact Hp |].
      rewrite concat_app, <- app_assoc, Hb, !app_assoc.
      rewrite (drain_conserves (inbuffer st ++ chunk)). reflexivity.
Qed.

(** Over well-formed start and media events the loop does not end. *)
Lemma receiver_app before evs :
  Forall2 wire_of before evs ->
  forall rest st,
    receiver (before ++ rest) st = receiver rest (receiver before st).
Proof.
  unfold receiver.
  induction 1 as [| message ev before evs Hw _ IH]; intros rest st.
  - reflexivity.
  - cbn [app twilio_receiver]. destruct ev as [sid | raw]; simpl in Hw.
    + rewrite (step_start b64decode st Hw). apply IH.
    + rewrite (step_media st Hw). apply IH.
Qed.

(** X3.  A stop event ends the loop at once: the messages behind it are
    not read, and the bytes still buffered (less than one frame) are left
    in the buffer, not flushed to the audio queue. *)
Theorem stop_ends_receiver_loop before evs stop after st :
  Forall2 wire_of before evs ->
  stop_event json_loads stop ->
  receiver (before ++ stop :: after) st =
    print_line (receiver before st) LogTwilioStop /\
  inbuffer (receiver (before ++ stop :: after) st) = inbuffer (receiver before st) /\
  audio_queue (receiver (before ++ stop :: after) st)
    = audio_queue (receiver before st).
Proof.
  intros Hw Hstop.
  assert (H : receiver (before ++ stop :: after) st =
              print_line (receiver before st) LogTwilioStop).
  { rewrite (receiver_app Hw). unfold receiver. cbn [twilio_receiver].
    rewrite (step_stop b64decode _ Hstop). reflexivity. }
  rewrite H. repeat split.
Qed.

Lemma rejects_raises message e st :
  rejects json_loads b64decode message e ->
  twilio_try json_loads b64decode message st = Raise e.
Proof.
  intros H. unfold twilio_try, loads.
  destruct H as [m Hl | m data e Hl He | m data e Hl He Hs
                 | m data start e Hl He Hs Hi | m data e Hl He Hm
                 | m data media e Hl He Hm Hp
                 | m data media payload Hl He Hm Hp Hty
                 | m data media text Hl He Hm Hp Hb];
    rewrite Hl; cbn [rbind]; try reflexivity;
    rewrite He; cbn [rbind]; try reflexivity.
  - change (eq_str (JStr (py "start")) (py "start")) with true. cbn iota.
    rewrite Hs. reflexivity.
  - change (eq_str (JStr (py "start")) (py "start")) with true. cbn iota.
    rewrite Hs. cbn [rbind]. rewrite Hi. reflexivity.
  - change (eq_str (JStr (py "media")) (py "start")) with false.
    change (eq_str (JStr (py "media")) (py "media")) with true. cbn iota.
    rewrite Hm. reflexivity.
  - change (eq_str (JStr (py "media")) (py "start")) with false.
    change (eq_str (JStr (py "media")) (py "media")) with true. cbn iota.
    rewrite Hm. cbn [rbind]. rewrite Hp. reflexivity.
  - change (eq_str (JStr (py "media")) (py "start")) with false.
    change (eq_str (JStr (py "media")) (py "media")) with true. cbn iota.
    rewrite Hm. cbn [rbind]. rewrite Hp. cbn [rbind].
    destruct payload; try reflexivity. exfalso. exact (Hty _ eq_refl).
  - change (eq_str (JStr (py "media")) (py "start")) with false.
    change (eq_str (JStr (py "media")) (py "media")) with true. cbn iota.
    rewrite Hm. cbn [rbind]. rewrite Hp. cbn [rbind decode_payload].
    rewrite Hb. reflexivity.
Qed.

(** X4.  A message that is not JSON, that cannot be indexed by "event",
    a start event whose "start" or "streamSid" is missing, or a media
    event whose "media" or "payload" is missing, whose payload is not a
    string or is refused by [b64decode], ends the loop: the exception
    Python raises there is printed, nothing is buffered or queued for the
    message, and the messages behind it are not read. *)
Theorem failing_message_ends_receiver_loop before evs bad e after st :
  Forall2 wire_of before evs ->
  rejects json_loads b64decode bad e ->
  receiver (before ++ bad :: after) st =
    print_line (receiver before st) (LogTwilioError e).
Proof.
  intros Hw Hbad. rewrite (receiver_app Hw). unfold receiver in *.
  cbn [twilio_receiver]. unfold twilio_step.
  rewrite (rejects_raises _ Hbad). reflexivity.
Qed.

(** X5.  An event that is neither start, media nor stop (Twilio's
    "connected" and "mark") changes nothing and the loop goes on. *)
Theorem unknown_event_is_ignored message data ev rest st :
  json_loads message = Some data ->
  subscript data (py "event") = Ok ev ->
  eq_str ev (py "start") = false ->
  eq_str ev (py "media") = false ->
  eq_str ev (py "stop") = false ->
  length (inbuffer st) < 3200 ->
  receiver (message :: rest) st = receiver rest st.
Proof.
  rewrite <- BUFFER_SIZE_val.
  intros Hl He H1 H2 H3 Hshort. unfold receiver. cbn [twilio_receiver].
  unfold twilio_step, twilio_try, loads. rewrite Hl. cbn [rbind].
  rewrite He. cbn [rbind]. rewrite H1, H2, H3.
  rewrite drain_lt by exact Hshort. destruct st; reflexivity.
Qed.

End ReceiverExtras.

(** *** Runs on sample messages *)

(** X1 on a start event, half a frame, a malformed text and more audio. *)
Lemma receiver_keeps_frames_whole_witness :
  length (inbuffer (twilio_receiver sample_loads sample_b64decode
                      [start_text "A"; half_frame_text; py "{"; half_frame_text]
                      receiver_init)) < 3200 /\
  Forall (fun f => length f = 3200)
         (audio_queue (twilio_receiver sample_loads sample_b64decode
                         [start_text "A"; half_frame_text; py "{"; half_frame_text]
                         receiver_init)).
Proof.
  apply (@receiver_keeps_frames_whole sample_loads sample_b64decode
           [start_text "A"; half_frame_text; py "{"; half_frame_text]
           receiver_init).
  - vm_compute. lia.
  - constructor.
Defined.

(** X3 on the sample call cut after half a frame. *)
Lemma stop_ends_receiver_loop_witness :
  twilio_receiver sample_loads sample_b64decode
                  (firstn 2 sample_call ++ stop_text :: [half_frame_text])
                  receiver_init =
    print_line (twilio_receiver sample_loads sample_b64decode
                                (firstn 2 sample_call) receiver_init)
               LogTwilioStop /\
  inbuffer (twilio_receiver sample_loads sample_b64decode
                            (firstn 2 sample_call ++ stop_text :: [half_frame_text])
                            receiver_init)
    = inbuffer (twilio_receiver sample_loads sample_b64decode
                                (firstn 2 sample_call) receiver_init) /\
  audio_queue (twilio_receiver sample_loads sample_b64decode
                               (firstn 2 sample_call ++ stop_text :: [half_frame_text])
                               receiver_init)
    = audio_queue (twilio_receiver sample_loads sample_b64decode
                                   (firstn 2 sample_call) receiver_init).
Proof.
  apply (@stop_ends_receiver_loop sample_loads sample_b64decode
           (firstn 2 sample_call) (firstn 2 sample_call_events) stop_text
           [half_frame_text] receiver_init sample_prefix_decodes sample_stop).
Defined.

Lemma more_start_A : start_event more_loads (start_text "A") (JStr (py "A")).
Proof.
  exists (start_json "A"), (JObj [(py "streamSid", JStr (py "A"))]).
  repeat split; vm_compute; reflexivity.
Defined.

(** X4 on a text that is not JSON, and on a media event whose payload is
    the number 5. *)
Lemma failing_message_ends_receiver_loop_witness :
  twilio_receiver sample_loads sample_b64decode
                  ([start_text "A"] ++ py "{" :: [half_frame_text])
                  receiver_init =
    print_line (twilio_receiver sample_loads sample_b64decode
                                [start_text "A"] receiver_init)
               (LogTwilioError ValueError) /\
  twilio_receiver more_loads sample_b64decode
                  ([start_text "A"] ++ bad_media_text :: [half_frame_text])
                  receiver_init =
    print_line (twilio_receiver more_loads sample_b64decode
                                [start_text "A"] receiver_init)
               (LogTwilioError TypeError).
Proof.
  split.
  - apply (@failing_message_ends_receiver_loop sample_loads sample_b64decode
             [start_text "A"] [SessionStart (JStr (py "A"))] (py "{")
             ValueError [half_frame_text] receiver_init).
    + repeat constructor. exact sample_start_A.
    + apply rejects_text. reflexivity.
  - apply (@failing_message_ends_receiver_loop more_loads sample_b64decode
             [start_text "A"] [SessionStart (JStr (py "A"))] bad_media_text
             TypeError [half_frame_text] receiver_init).
    + repeat constructor. exact more_start_A.
    + apply (@rejects_payload_type more_loads sample_b64decode bad_media_text
               bad_media_json (JObj [(py "payload", JInt 5)]) (JInt 5)).
      * vm_compute. reflexivity.
      * reflexivity.
      * reflexivity.
      * reflexivity.
      * intros text. discriminate.
Defined.

(** X5 on Twilio's "connected" event. *)
Lemma unknown_event_is_ignored_witness :
  twilio_receiver more_loads sample_b64decode
                  (connected_text :: [start_text "A"]) receiver_init =
  twilio_receiver more_loads sample_b64decode [start_text "A"] receiver_init.
Proof.
  apply (@unknown_event_is_ignored more_loads sample_b64decode connected_text
           connected_json (JStr (py "connected")) [start_text "A"] receiver_init).
  - vm_compute. reflexivity.
  - reflexivity.
  - reflexivity.
  - reflexivity.
  - reflexivity.
  - vm_compute. lia.
Defined.

(** ** The relay at every moment of every interleaving *)

Lemma sent_audio_app l1 l2 : sent_audio (l1 ++ l2) = sent_audio l1 ++ sent_audio l2.
Proof. apply flat_map_app. Qed.

Lemma sent_twilio_app l1 l2 :
  sent_twilio (l1 ++ l2) = sent_twilio l1 ++ sent_twilio l2.
Proof. apply flat_map_app. Qed.

Lemma sent_audio_cons e evs :
  sent_audio (e :: evs) =
  match e with StsSendAudio chunk => [chunk] | _ => [] end ++ sent_audio evs.
Proof. reflexivity. Qed.

Lemma sent_twilio_cons e evs :
  sent_twilio (e :: evs) =
  match e with TwilioSend msg => [msg] | _ => [] end ++ sent_twilio evs.
Proof. reflexivity. Qed.

Lemma retrieval_sends_nothing evs :
  forallb is_retrieval evs = true -> sent_audio evs = [] /\ sent_twilio evs = [].
Proof.
  induction evs as [| e evs IH]; [split; reflexivity |].
  cbn [forallb]. intros H. apply andb_prop in H as [He Hr].
  destruct (IH Hr) as [Ha Ht].
  rewrite sent_audio_cons, sent_twilio_cons, Ha, Ht.
  destruct e; try discriminate He; split; reflexivity.
Qed.

Section RelayExtras.

Variable json_loads : pystr -> option json.
Variable b64decode : pystr -> option (list byte).
Variable b64encode : list byte -> pystr.
Variable embeddings_create : pystr -> option vector.
Variable index_query : vector -> nat -> option (list Match).

Let next := step json_loads b64decode b64encode embeddings_create index_query.
Let reach := steps json_loads b64decode b64encode embeddings_create index_query.
Let wire_of := decodes_to json_loads b64decode.
Let handle := handle_text_message embeddings_create index_query.
Let receive1 := sts_receive embeddings_create index_query json_loads b64encode.

(** The turn controller writes nothing to the telephony transport and no
    audio to the agent transport. *)
Lemma turn_sends decoded :
  sent_audio (events (turn_controller embeddings_create index_query decoded)) = [] /\
  sent_twilio (events (turn_controller embeddings_create index_query decoded)) = [].
Proof.
  rewrite turn_cases.
  destruct (_extract_transcript_from_deepgram decoded)
    as [[[[| c transcript] [|]] response_id] | e]; try (split; reflexivity).
  cbn [events fst]. rewrite fallback_events.
  destruct (retrieval_sends_nothing _
              (rag_retrieve_events embeddings_create index_query (c :: transcript)))
    as [Ha Ht].
  rewrite sent_audio_cons, sent_twilio_cons.
  rewrite !sent_audio_app, !sent_twilio_app, Ha, Ht.
  destruct (outcome (rag_retrieve embeddings_create index_query (c :: transcript)));
    split; reflexivity.
Qed.

Lemma bind_emit {B} (e : event) (k : unit -> M B) :
  bind (emit e) k = (e :: events (k tt), outcome (k tt)).
Proof. unfold bind, emit. destruct (k tt). reflexivity. Qed.

(** One agent message: no audio goes to the agent transport, and what
    goes to the telephony transport carries the stream identifier. *)
Lemma receive1_sends sid m :
  sent_audio (events (receive1 sid m)) = [] /\
  Forall (fun msg => subscript msg (py "streamSid") = Ok sid)
         (sent_twilio (events (receive1 sid m))).
Proof.
  unfold receive1, sts_receive. destruct m as [s | raw].
  - destruct (json_loads s) as [decoded |]; [| split; [reflexivity | constructor]].
    unfold lift. change (([] : list event, Ok decoded)) with (ret decoded).
    rewrite bind_ret_l, bind_emit. cbn [events fst].
    rewrite sent_audio_cons, sent_twilio_cons. cbn [app].
    rewrite handle_cases.
    destruct (get decoded (py "type")) as [ty | e];
      [| split; [reflexivity | constructor]].
    cbn [events fst]. rewrite sent_audio_app, sent_twilio_app.
    destruct (turn_sends decoded) as [-> ->]. rewrite !app_nil_r.
    destruct (eq_str ty (py "UserStartedSpeaking")); split;
      try reflexivity; repeat constructor.
  - split; [reflexivity |]. repeat constructor.
Qed.

Ltac step_cases Hs :=
  let t := fresh "t" in
  destruct Hs as [t c0 c1 Hs]; destruct t; cbn [step_task] in Hs;
  [ unfold step_receiver in Hs;
    destruct (is_running (receiver_task c0)); [| discriminate Hs];
    destruct (twilio_in c0) as [| message rest] eqn:Hin;
    [| destruct (twilio_step json_loads b64decode message (shared c0))
         as [st' ctl] eqn:Hstep];
    inversion Hs; subst c1; clear Hs
  | unfold step_sender, sts_sender in Hs;
    destruct (is_running (sender_task c0)); [| discriminate Hs];
    destruct (audio_queue (shared c0)) as [| chunk queue] eqn:Hq;
    [discriminate Hs |]; inversion Hs; subst c1; clear Hs
  | unfold step_agent in Hs;
    destruct (is_running (agent_task c0)); [| discriminate Hs];
    destruct (agent_streamsid c0) as [sid |] eqn:Hsid;
    [ destruct (sts_in c0) as [| m rest] eqn:Hsts;
      [| destruct (sts_receive embeddings_create index_query json_loads
                               b64encode sid m) as [emitted r] eqn:Hrecv];
      inversion Hs; subst c1; clear Hs
    | destruct (streamsid_queue (shared c0)) as [| sid rest] eqn:Hsq;
      [discriminate Hs |]; inversion Hs; subst c1; clear Hs ] ].

Lemma steps_preserve (P : relay -> Prop) :
  (forall c c', P c -> next c c' -> P c') ->
  forall c c', reach c c' -> P c -> P c'.
Proof.
  intros Hstep c c' H. unfold reach in H.
  induction H as [c | c c1 c2 Hs _ IH]; intros Hp; [exact Hp |].
  apply IH, (Hstep c c1 Hp Hs).
Qed.

Lemma frames_whole_step c c' : frames_whole c -> next c c' -> frames_whole c'.
Proof.
  intros (Hshort & Hqueue & Hsent) Hs. unfold frames_whole.
  step_cases Hs; cbn [shared wire inbuffer audio_queue set_buffers fst snd].
  - repeat split; assumption.
  - destruct (twilio_step_shape json_loads b64decode message (shared c0))
      as [[l Hb] | (chunk & sids & Hc)].
    + rewrite Hb in Hstep. inversion Hstep; subst. repeat split; assumption.
    + rewrite Hc in Hstep. inversion Hstep; subst.
      destruct (advanced_keeps_whole (shared c0) chunk sids Hqueue) as [H1 H2].
      repeat split; assumption.
  - try rewrite Hq in Hqueue. inversion Hqueue; subst.
    repeat split; try assumption.
    rewrite sent_audio_app. apply Forall_app. split; [assumption |].
    repeat constructor. assumption.
  - repeat split; assumption.
  - repeat split; try assumption.
    rewrite sent_audio_app. apply Forall_app. split; [assumption |].
    pose proof (receive1_sends sid m) as [Ha _]. unfold receive1 in Ha.
    rewrite Hrecv in Ha. cbn [events fst] in Ha. rewrite Ha. constructor.
  - repeat split; assumption.
Qed.

Lemma stream_tagged_step agent c c' :
  stream_tagged agent c -> next c c' -> stream_tagged agent c'.
Proof.
  intros Htag Hs. unfold stream_tagged in *.
  step_cases Hs; cbn [agent_streamsid wire sts_in] in *.
  - exact Htag.
  - exact Htag.
  - rewrite sent_twilio_app. cbn [sent_twilio flat_map]. rewrite app_nil_r.
    exact Htag.
  - exact Htag.
  - rewrite sent_twilio_app. apply Forall_app. split; [exact Htag |].
    pose proof (receive1_sends sid m) as [_ Ht]. unfold receive1 in Ht.
    rewrite Hrecv in Ht. exact Ht.
  - destruct Htag as [-> _]. constructor.
Qed.

Lemma media_chunks_snoc consumed ev :
  concat (media_chunks (consumed ++ [ev])) =
  concat (media_chunks consumed) ++
  match ev with MediaChunk raw => raw | SessionStart _ => [] end.
Proof.
  unfold media_chunks. rewrite flat_map_app, concat_app.
  destruct ev; cbn [flat_map concat app]; rewrite ?app_nil_r; reflexivity.
Qed.

Lemma start_ids_snoc consumed ev :
  start_ids (consumed ++ [ev]) =
  start_ids consumed ++
  match ev with SessionStart sid => [sid] | MediaChunk _ => [] end.
Proof.
  unfold start_ids. rewrite flat_map_app.
  destruct ev; cbn [flat_map app]; reflexivity.
Qed.

Lemma in_step_step evs c c' :
  in_step json_loads b64decode evs c -> next c c' ->
  in_step json_loads b64decode evs c'.
Proof.
  intros (consumed & remaining & Hevs & Hw & Hframes & Hbuf & Hsids) Hs.
  unfold in_step.
  step_cases Hs;
    cbn [twilio_in shared wire agent_streamsid inbuffer audio_queue
         streamsid_queue set_buffers fst snd] in *.
  - exists consumed, remaining. repeat split; assumption.
  - inversion Hw as [| ? ev ? remaining' Hev Hrest]; subst.
    exists (consumed ++ [ev]), remaining'.
    rewrite media_chunks_snoc, start_ids_snoc.
    split; [rewrite <- app_assoc; reflexivity |].
    split; [exact Hrest |].
    assert (Hshort : length (inbuffer (shared c0)) < BUFFER_SIZE)
      by (rewrite Hbuf; apply drain_leaves_short).
    destruct ev as [sid | raw]; cbn [decodes_to] in Hev.
    + rewrite (step_start b64decode (shared c0) Hev) in Hstep.
      inversion Hstep; subst st' ctl.
      rewrite drain_lt by exact Hshort.
      cbn [set_buffers put_streamsid inbuffer audio_queue streamsid_queue
           fst snd].
      rewrite app_nil_r.
      repeat split; try assumption.
      destruct (agent_streamsid c0); rewrite <- Hsids;
        [rewrite app_comm_cons |]; reflexivity.
    + rewrite (step_media (shared c0) Hev) in Hstep.
      inversion Hstep; subst st' ctl.
      cbn [set_buffers inbuffer audio_queue streamsid_queue fst snd].
      rewrite <- (drain_incremental (concat (media_chunks consumed)) raw []).
      rewrite <- Hbuf, <- Hframes.
      rewrite (drain_queue (inbuffer (shared c0) ++ raw)
                           (sent_audio (wire c0) ++ audio_queue (shared c0))).
      rewrite (drain_queue (inbuffer (shared c0) ++ raw) (audio_queue (shared c0))).
      cbn [fst snd]. rewrite app_nil_r, app_assoc.
      repeat split; assumption.
  - exists consumed, remaining.
    rewrite sent_audio_app. cbn [sent_audio flat_map app].
    rewrite <- app_assoc. cbn [app].
    repeat split; assumption.
  - exists consumed, remaining. repeat split; assumption.
  - exists consumed, remaining.
    pose proof (receive1_sends sid m) as [Ha _]. unfold receive1 in Ha.
    rewrite Hrecv in Ha. cbn [events fst] in Ha.
    rewrite sent_audio_app, Ha, app_nil_r.
    repeat split; assumption.
  - exists consumed, remaining. repeat split; assumption.
Qed.

Lemma session_frames_whole telephony agent :
  frames_whole (session telephony agent).
Proof.
  unfold frames_whole, session. cbn. repeat split; try constructor.
  apply BUFFER_SIZE_pos.
Qed.

Lemma session_in_step telephony evs agent :
  Forall2 wire_of telephony evs ->
  in_step json_loads b64decode evs (session telephony agent).
Proof.
  intros Hw. exists [], evs.
  cbn [session twilio_in wire shared agent_streamsid receiver_init inbuffer
       audio_queue streamsid_queue media_chunks start_ids flat_map concat
       sent_audio app].
  rewrite drain_lt by apply BUFFER_SIZE_pos.
  repeat split. exact Hw.
Qed.


(** X7.  Whatever the two transports deliver and however the coroutines
    interleave, every audio frame sent to the agent transport, and every
    frame waiting in the queue, has exactly 3200 bytes. *)
Theorem agent_audio_is_whole_frames telephony agent c :
  reach (session telephony agent) c ->
  Forall (fun f => length f = 3200) (sent_audio (wire c)) /\
  Forall (fun f => length f = 3200) (audio_queue (shared c)) /\
  length (inbuffer (shared c)) < 3200.
Proof.
  intros Hreach. rewrite <- BUFFER_SIZE_val.
  destruct (steps_preserve frames_whole frames_whole_step Hreach
              (session_frames_whole telephony agent)) as (H1 & H2 & H3).
  repeat split; assumption.
Qed.

(** X8.  As long as [sts_receiver] has not received a stream identifier
    it has read no agent message and nothing has been sent to the
    telephony transport, whatever the agent delivers. *)
Theorem nothing_relayed_before_start telephony agent c :
  reach (session telephony agent) c ->
  agent_streamsid c = None ->
  sent_twilio (wire c) = [] /\ sts_in c = agent.
Proof.
  intros Hreach Hnone.
  pose proof (steps_preserve (stream_tagged agent)
                (@stream_tagged_step agent) Hreach) as Htag.
  unfold stream_tagged in Htag at 2. rewrite Hnone in Htag.
  apply Htag. unfold stream_tagged, session. cbn. split; reflexivity.
Qed.

(** X9.  Over well-formed start and media events, the stream identifier
    [sts_receiver] works with is the one of the first start event, and
    every message it has sent to the telephony transport carries it. *)
Theorem relay_tags_first_stream_id telephony evs agent c sid :
  Forall2 wire_of telephony evs ->
  reach (session telephony agent) c ->
  agent_streamsid c = Some sid ->
  hd_error (start_ids evs) = Some sid /\
  Forall (fun msg => subscript msg (py "streamSid") = Ok sid)
         (sent_twilio (wire c)).
Proof.
  intros Hw Hreach Hsid. split.
  - destruct (steps_preserve (in_step json_loads b64decode evs)
                (@in_step_step evs) Hreach (session_in_step agent Hw))
      as (consumed & remaining & Hevs & _ & _ & _ & Hq).
    rewrite Hsid in Hq. rewrite Hevs. unfold start_ids in *.
    rewrite flat_map_app, <- Hq. reflexivity.
  - pose proof (steps_preserve (stream_tagged agent)
                  (@stream_tagged_step agent) Hreach) as Htag.
    unfold stream_tagged in Htag at 2. rewrite Hsid in Htag.
    apply Htag. unfold stream_tagged, session. cbn. split; reflexivity.
Qed.

End RelayExtras.

(** *** Runs of the sample session *)

Lemma open_relay_reached :
  steps sample_loads sample_b64decode sample_b64encode sample_embeddings
        sample_index open_session open_relay.
Proof. apply run_steps. Qed.


(** X7 on the sample session with its stop event. *)
Lemma agent_audio_is_whole_frames_witness :
  Forall (fun f => length f = 3200)
         (sent_audio (wire (run sample_loads sample_b64decode sample_b64encode
                                sample_embeddings sample_index after_stop
                                sample_stopped))) /\
  Forall (fun f => length f = 3200)
         (audio_queue (shared (run sample_loads sample_b64decode sample_b64encode
                                   sample_embeddings sample_index after_stop
                                   sample_stopped))) /\
  length (inbuffer (shared (run sample_loads sample_b64decode sample_b64encode
                                sample_embeddings sample_index after_stop
                                sample_stopped))) < 3200.
Proof.
  apply (@agent_audio_is_whole_frames sample_loads sample_b64decode
           sample_b64encode sample_embeddings sample_index
           (sample_call ++ [stop_text]) [Binary (zeros 3)]).
  apply (run_steps sample_loads sample_b64decode sample_b64encode
                   sample_embeddings sample_index (until_stop ++ after_stop)
                   sample_session).
Defined.

(** X8 on the sample session before the receiver has run. *)
Lemma nothing_relayed_before_start_witness :
  sent_twilio (wire waiting_relay) = [] /\
  sts_in waiting_relay = [Binary (zeros 3)].
Proof.
  apply (@nothing_relayed_before_start sample_loads sample_b64decode
           sample_b64encode sample_embeddings sample_index
           (sample_call ++ [stop_text]) [Binary (zeros 3)] waiting_relay).
  - apply (run_steps sample_loads sample_b64decode sample_b64encode
                     sample_embeddings sample_index
                     [StsReceiver; StsSender; StsReceiver] sample_session).
  - vm_compute. reflexivity.
Defined.

(** X9 on the sample call, after the agent's audio frame was relayed. *)
Lemma relay_tags_first_stream_id_witness :
  hd_error (start_ids sample_call_events) = Some (JStr (py "A")) /\
  Forall (fun msg => subscript msg (py "streamSid") = Ok (JStr (py "A")))
         (sent_twilio (wire open_relay)).
Proof.
  apply (@relay_tags_first_stream_id sample_loads sample_b64decode
           sample_b64encode sample_embeddings sample_index
           sample_call sample_call_events [Binary (zeros 3)] open_relay
           (JStr (py "A")) sample_call_decodes open_relay_reached).
  vm_compute. reflexivity.
Defined.

(** ** The transcript extractor and the message handler *)

Lemma lstrip_head s c r : lstrip s = c :: r -> isspace c = false.
Proof.
  induction s as [| a s IH]; [discriminate |].
  cbn [lstrip]. destruct (isspace a) eqn:Ha; [exact IH |].
  intros H. inversion H; subst. exact Ha.
Qed.

Lemma lstrip_suffix s : exists ws, s = ws ++ lstrip s.
Proof.
  induction s as [| a s [ws IH]]; [exists []; reflexivity |].
  cbn [lstrip]. destruct (isspace a).
  - exists (a :: ws). cbn [app]. rewrite <- IH. reflexivity.
  - exists []. reflexivity.
Qed.

Lemma rstrip_prefix s : exists ws, s = rstrip s ++ ws.
Proof.
  unfold rstrip. destruct (lstrip_suffix (rev s)) as [ws H].
  exists (rev ws). rewrite <- rev_app_distr, <- H, rev_involutive. reflexivity.
Qed.

Lemma rstrip_last s r c : rstrip s = r ++ [c] -> isspace c = false.
Proof.
  unfold rstrip. intros H.
  apply (f_equal (@rev N)) in H.
  rewrite rev_involutive, rev_app_distr in H. cbn [rev app] in H.
  exact (@lstrip_head _ _ _ H).
Qed.

(** [strip] leaves no white space at either end. *)
Lemma strip_ends s :
  (forall c r, strip s = c :: r -> isspace c = false) /\
  (forall r c, strip s = r ++ [c] -> isspace c = false).
Proof.
  unfold strip. split.
  - intros c r H. destruct (rstrip_prefix (lstrip s)) as [ws Hp].
    rewrite H in Hp. exact (@lstrip_head s c (r ++ ws) Hp).
  - intros r c H. exact (@rstrip_last _ _ _ H).
Qed.

Lemma strip_spaces s : forallb isspace s = true -> strip s = [].
Proof.
  intros H. unfold strip.
  rewrite <- (app_nil_r s), (lstrip_spaces _ _ H). reflexivity.
Qed.

Lemma py_strip_is_strip v t : py_strip v = Ok t -> exists s, t = strip s.
Proof.
  destruct v; try discriminate. intros H. inversion H. eauto.
Qed.

Lemma barge_in_dict fields sid :
  handle_barge_in (JObj fields) sid =
  (if eq_str (field fields (py "type")) (py "UserStartedSpeaking")
   then [TwilioSend (clear_message sid)] else [],
   Ok tt).
Proof.
  unfold handle_barge_in. rewrite get_dict. unfold lift, bind, emit, ret.
  destruct (eq_str (field fields (py "type")) (py "UserStartedSpeaking"));
    reflexivity.
Qed.

Section AgentExtras.

Variable embeddings_create : pystr -> option vector.
Variable index_query : vector -> nat -> option (list Match).
Variable json_loads : pystr -> option json.
Variable b64encode : list byte -> pystr.

Let retrieve := rag_retrieve embeddings_create index_query.
Let turn := turn_controller embeddings_create index_query.
Let handle := handle_text_message embeddings_create index_query.
Let receive := sts_receiver embeddings_create index_query json_loads b64encode.

(** X10.  A non-empty string in "transcript", or else in "text", is the
    transcript whatever the alternatives hold: the text is that string
    stripped, the finality is the truth value of the top-level "is_final",
    and the response id is "response_id" when it is truthy and "id"
    otherwise. *)
Theorem direct_transcript_wins fields s :
  direct_transcript fields = JStr s ->
  s <> [] ->
  _extract_transcript_from_deepgram (JObj fields) =
    Ok (strip s,
        truthy (if has_key (py "is_final") fields
                then field fields (py "is_final") else JBool false),
        py_or (field fields (py "response_id")) (field fields (py "id"))).
Proof.
  intros Hd Hne. unfold _extract_transcript_from_deepgram.
  rewrite !get_dict. cbn [rbind]. fold (direct_transcript fields).
  rewrite Hd. destruct s as [| c s]; [congruence |].
  cbn [truthy negb andb py_strip rbind]. reflexivity.
Qed.

(** X11.  Without a direct transcript, the first entry of "alternatives"
    supplies the text, and the result is final when the top-level
    "is_final" is truthy or that entry has a truthy "final" or
    "is_final". *)
Theorem alternative_transcript_and_flag fields alt more s :
  truthy (direct_transcript fields) = false ->
  lookup (py "alternatives") fields = Some (JArr (JObj alt :: more)) ->
  py_or (field alt (py "transcript")) (py_or (field alt (py "text")) (JStr []))
    = JStr s ->
  _extract_transcript_from_deepgram (JObj fields) =
    Ok (strip s,
        truthy (if has_key (py "is_final") fields
                then field fields (py "is_final") else JBool false)
        || truthy (py_or (field alt (py "final")) (field alt (py "is_final"))),
        py_or (field fields (py "response_id")) (field fields (py "id"))).
Proof.
  intros Hd Halts Hs. unfold _extract_transcript_from_deepgram.
  rewrite !get_dict. cbn [rbind]. fold (direct_transcript fields).
  rewrite Hd.
  assert (Hk : has_key (py "alternatives") fields = true)
    by (unfold has_key; rewrite Halts; reflexivity).
  assert (Hf : field fields (py "alternatives") = JArr (JObj alt :: more))
    by (unfold field; rewrite Halts; reflexivity).
  rewrite Hk, Hf. cbn [negb andb truthy subscript0 rbind].
  rewrite !get_dict. cbn [rbind]. rewrite Hs. cbn [py_strip rbind].
  destruct (truthy (py_or (field alt (py "final")) (field alt (py "is_final"))));
    cbn [truthy]; rewrite ?orb_true_r, ?orb_false_r; reflexivity.
Qed.

(** X12.  A control message that is valid JSON but not an object (a
    list, a string, a number, a boolean, null) makes
    [handle_text_message] raise [AttributeError] before anything is sent
    or retrieved. *)
Theorem non_dict_event_raises decoded sid :
  (forall fields, decoded <> JObj fields) ->
  handle decoded sid = ([], Raise AttributeError).
Proof.
  intros Hnot. destruct decoded; try reflexivity.
  exfalso. exact (Hnot _ eq_refl).
Qed.

Lemma extract_text_is_strip decoded t f rid :
  _extract_transcript_from_deepgram decoded = Ok (t, f, rid) ->
  exists s, t = strip s.
Proof.
  destruct decoded as [| b | z | fl | str | items | fields]; try discriminate.
  unfold _extract_transcript_from_deepgram.
  rewrite !get_dict. cbn [rbind].
  repeat match goal with
         | |- context [if ?b then _ else _] =>
             match b with
             | context [if _ then _ else _] => fail 1
             | _ => destruct b
             end
         | |- context [rbind (subscript0 ?v) _] =>
             destruct (subscript0 v); cbn [rbind]
         | |- context [rbind (get ?v ?k) _] =>
             destruct (get v k); cbn [rbind]
         | |- context [rbind (py_strip ?v) _] =>
             let H := fresh "H" in
             destruct (py_strip v) eqn:H; cbn [rbind]
         end;
    try discriminate;
    intros Hok; inversion Hok; subst;
    match goal with
    | H : py_strip _ = Ok _ |- _ => exact (@py_strip_is_strip _ _ H)
    end.
Qed.

(** X13.  The text the extractor returns never starts or ends with white
    space. *)
Theorem extracted_text_is_stripped decoded t f rid :
  _extract_transcript_from_deepgram decoded = Ok (t, f, rid) ->
  (forall c r, t = c :: r -> isspace c = false) /\
  (forall r c, t = r ++ [c] -> isspace c = false).
Proof.
  intros H. destruct (@extract_text_is_strip _ _ _ _ H) as [s ->].
  apply strip_ends.
Qed.

(** X14.  A transcript of white space only counts as empty: even when
    the event is final, [handle_text_message] does what the barge-in
    handler does and nothing more, no print, no retrieval, no injection. *)
Theorem whitespace_transcript_is_ignored fields s sid :
  direct_transcript fields = JStr s ->
  s <> [] ->
  forallb isspace s = true ->
  handle (JObj fields) sid = handle_barge_in (JObj fields) sid.
Proof.
  intros Hd Hne Hws.
  assert (Hex : exists f rid,
             _extract_transcript_from_deepgram (JObj fields) = Ok ([], f, rid)).
  { unfold _extract_transcript_from_deepgram.
    rewrite !get_dict. cbn [rbind]. fold (direct_transcript fields).
    rewrite Hd. destruct s as [| c s]; [congruence |].
    cbn [truthy negb andb py_strip rbind].
    rewrite (strip_spaces (c :: s) Hws). eauto. }
  destruct Hex as (f & rid & Hex).
  unfold handle. rewrite handle_cases, turn_cases, Hex.
  rewrite get_dict, barge_in_dict. cbn [events outcome fst snd].
  rewrite app_nil_r. reflexivity.
Qed.

Lemma prompt_contains_transcript transcript context :
  substring transcript (strip (prompt transcript context)).
Proof.
  rewrite strip_prompt.
  exists (89%N :: skipn 2 prompt_head),
         (prompt_middle ++ context
            ++ firstn (length prompt_tail - 3) prompt_tail ++ [46%N]).
  cbn [app]. rewrite <- !app_assoc. reflexivity.
Qed.

(** X15.  For a final, non-empty transcript on which [rag_retrieve]
    returns a context, [handle_text_message] prints, retrieves once and
    sends one response.create message whose response id is the one of the
    event and whose instructions contain both the transcript and the
    retrieved context. *)
Theorem successful_retrieval_is_injected decoded sid transcript response_id context :
  _extract_transcript_from_deepgram decoded
    = Ok (transcript, true, response_id) ->
  transcript <> [] ->
  outcome (retrieve transcript) = Ok context ->
  handle decoded sid =
    (events (handle_barge_in decoded sid)
       ++ Print (LogFinal transcript)
       :: events (retrieve transcript)
       ++ [Print LogSending;
           StsSend (response_create response_id (prompt transcript context))],
     Ok tt) /\
  subscript (response_create response_id (prompt transcript context))
            (py "response_id") = Ok response_id /\
  exists instructions,
    subscript (response_create response_id (prompt transcript context))
              (py "instructions") = Ok (JStr instructions) /\
    substring transcript instructions /\
    substring context instructions.
Proof.
  intros Hex Hne Hok.
  assert (Hctx : context_of embeddings_create index_query transcript = context).
  { unfold context_of. unfold retrieve in Hok. rewrite Hok. reflexivity. }
  split; [| split; [reflexivity |]].
  - destruct (extract_ok_dict _ Hex) as [fields ->].
    unfold handle. rewrite handle_cases, turn_cases, Hex.
    rewrite barge_in_dict, get_dict.
    destruct transcript as [| c transcript]; [congruence |].
    rewrite fallback_events. unfold retrieve in Hok. rewrite Hok, Hctx.
    cbn [events outcome fst snd]. rewrite app_nil_r. reflexivity.
  - exists (strip (prompt transcript context)).
    split; [reflexivity |].
    split; [apply prompt_contains_transcript | apply prompt_contains_context].
Qed.

(** X16.  A non-empty transcript that is not final is printed as a
    partial and nothing else happens after the barge-in handler. *)
Theorem partial_transcript_is_only_logged decoded sid transcript response_id :
  _extract_transcript_from_deepgram decoded
    = Ok (transcript, false, response_id) ->
  transcript <> [] ->
  handle decoded sid =
    (events (handle_barge_in decoded sid) ++ [Print (LogPartial transcript)],
     Ok tt).
Proof.
  intros Hex Hne.
  destruct (extract_ok_dict _ Hex) as [fields ->].
  unfold handle. rewrite handle_cases, turn_cases, Hex.
  rewrite barge_in_dict, get_dict.
  destruct transcript as [| c transcript]; [congruence |]. reflexivity.
Qed.

(** X17.  When the type of the event is anything but
    "UserStartedSpeaking", [handle_text_message] sends nothing to the
    telephony transport. *)
Theorem no_clear_without_barge_in decoded sid ty :
  get decoded (py "type") = Ok ty ->
  eq_str ty (py "UserStartedSpeaking") = false ->
  sent_twilio (events (handle decoded sid)) = [].
Proof.
  intros Hty Hno. unfold handle. rewrite handle_cases, Hty, Hno.
  cbn [events fst app].
  exact (proj2 (turn_sends embeddings_create index_query decoded)).
Qed.

(** X18.  A run of binary agent messages is relayed one for one and in
    order, each as a media message for the stream with its payload in
    base64, and the loop returns normally at the end of the run. *)
Theorem agent_audio_relayed_in_order sid raws :
  receive sid (map Binary raws) =
    (map (fun raw => TwilioSend (media_message b64encode sid raw)) raws, Ok tt).
Proof.
  unfold receive. induction raws as [| raw raws IH]; [reflexivity |].
  cbn [map sts_receiver sts_receive]. rewrite IH, bind_emit. reflexivity.
Qed.

Lemma as_strings_non_string items x :
  In x items -> (forall s, x <> JStr s) -> as_strings items = Raise TypeError.
Proof.
  induction items as [| item items IH]; [contradiction |].
  intros Hin Hnot.
  destruct item as [| b | z | f | s | l | o]; try reflexivity.
  destruct Hin as [<- | Hin]; [exfalso; exact (Hnot s eq_refl) |].
  cbn [as_strings]. rewrite (IH Hin Hnot). reflexivity.
Qed.

Lemma collect_contexts_has matches m fields answer :
  In m matches ->
  metadata m = Some fields ->
  lookup (py "answer") fields = Some answer ->
  In answer (collect_contexts matches).
Proof.
  intros Hin Hm Hl.
  induction matches as [| m0 matches IH]; [contradiction |].
  cbn [collect_contexts]. destruct Hin as [-> | Hin].
  - rewrite Hm. destruct fields as [| kv fields]; [discriminate Hl |].
    rewrite Hl. left. reflexivity.
  - specialize (IH Hin).
    destruct (metadata m0) as [[| kv0 fields0] |]; try exact IH.
    destruct (lookup (py "answer") (kv0 :: fields0)); [right |]; exact IH.
Qed.

(** X19.  When a match carries an "answer" that is not a string,
    [rag_retrieve] raises [TypeError] after both service calls, whatever
    the other matches hold, and the handler's context is the sentinel. *)
Theorem non_string_answer_raises query v matches m fields answer :
  embeddings_create query = Some v ->
  index_query v 3 = Some matches ->
  In m matches ->
  metadata m = Some fields ->
  lookup (py "answer") fields = Some answer ->
  (forall s, answer <> JStr s) ->
  retrieve query = ([EmbeddingsCreate query; IndexQuery v 3], Raise TypeError) /\
  context_of embeddings_create index_query query = NO_CONTEXT.
Proof.
  intros He Hq Hin Hm Hl Hnot.
  assert (Hr : retrieve query =
               ([EmbeddingsCreate query; IndexQuery v 3], Raise TypeError)).
  { unfold retrieve. rewrite rag_retrieve_cases, He, Hq.
    pose proof (collect_contexts_has matches m Hin Hm Hl) as Hc.
    destruct (collect_contexts matches) as [| c cs] eqn:Hcs; [contradiction |].
    unfold join_contexts. rewrite (as_strings_non_string _ Hc Hnot).
    reflexivity. }
  split; [exact Hr |].
  unfold context_of. unfold retrieve in Hr. rewrite Hr. reflexivity.
Qed.

End AgentExtras.

(** *** Runs on sample events *)

(** X10 on an event with a padded transcript, an "id" and alternatives. *)
Lemma direct_transcript_wins_witness :
  _extract_transcript_from_deepgram (JObj padded_fields) =
    Ok (strip (py "  hello "),
        truthy (if has_key (py "is_final") padded_fields
                then field padded_fields (py "is_final") else JBool false),
        py_or (field padded_fields (py "response_id"))
              (field padded_fields (py "id"))) /\
  strip (py "  hello ") = py "hello".
Proof.
  split.
  - apply (@direct_transcript_wins padded_fields (py "  hello ")).
    + reflexivity.
    + discriminate.
  - reflexivity.
Defined.

(** X11 on the event whose first alternative is flagged final. *)
Lemma alternative_transcript_and_flag_witness :
  _extract_transcript_from_deepgram (JObj override_fields) =
    Ok (strip (py "hi"),
        truthy (if has_key (py "is_final") override_fields
                then field override_fields (py "is_final") else JBool false)
        || truthy (py_or (field [(py "transcript", JStr (py "hi"));
                                 (py "final", JBool true)] (py "final"))
                         (field [(py "transcript", JStr (py "hi"));
                                 (py "final", JBool true)] (py "is_final"))),
        py_or (field override_fields (py "response_id"))
              (field override_fields (py "id"))).
Proof.
  apply (@alternative_transcript_and_flag override_fields
           [(py "transcript", JStr (py "hi")); (py "final", JBool true)]
           [] (py "hi")).
  - reflexivity.
  - reflexivity.
  - reflexivity.
Defined.

(** X12 on a JSON list. *)
Lemma non_dict_event_raises_witness :
  handle_text_message sample_embeddings sample_index (JArr []) (JStr (py "A"))
    = ([], Raise AttributeError).
Proof.
  apply (@non_dict_event_raises sample_embeddings sample_index
           (JArr []) (JStr (py "A"))).
  intros fields. discriminate.
Defined.

(** X13 on the padded transcript. *)
Lemma extracted_text_is_stripped_witness :
  (forall c r, py "hello" = c :: r -> isspace c = false) /\
  (forall r c, py "hello" = r ++ [c] -> isspace c = false).
Proof.
  apply (@extracted_text_is_stripped (JObj padded_fields) (py "hello") true
           (JStr (py "u7"))).
  vm_compute. reflexivity.
Defined.

(** X14 on a final event whose transcript is two spaces. *)
Lemma whitespace_transcript_is_ignored_witness :
  handle_text_message sample_embeddings sample_index (JObj blank_fields)
                      (JStr (py "A"))
    = handle_barge_in (JObj blank_fields) (JStr (py "A")).
Proof.
  apply (@whitespace_transcript_is_ignored sample_embeddings sample_index
           blank_fields (py "  ") (JStr (py "A"))).
  - reflexivity.
  - discriminate.
  - reflexivity.
Defined.

(** X15 on the final event, with the sample index. *)
Lemma successful_retrieval_is_injected_witness :
  exists instructions,
    subscript (response_create (JStr (py "r1"))
                 (prompt (py "What courses do you offer?")
                         (py "Course A info" ++ newline ++ py "Course B info")))
              (py "instructions") = Ok (JStr instructions) /\
    substring (py "What courses do you offer?") instructions /\
    substring (py "Course A info" ++ newline ++ py "Course B info") instructions.
Proof.
  apply (@successful_retrieval_is_injected sample_embeddings sample_index
           final_event (JStr (py "A")) (py "What courses do you offer?")
           (JStr (py "r1")) (py "Course A info" ++ newline ++ py "Course B info")).
  - vm_compute. reflexivity.
  - discriminate.
  - vm_compute. reflexivity.
Defined.

(** X16 on the partial transcript. *)
Lemma partial_transcript_is_only_logged_witness :
  handle_text_message sample_embeddings sample_index (JObj partial_fields)
                      (JStr (py "A")) =
    (events (handle_barge_in (JObj partial_fields) (JStr (py "A")))
       ++ [Print (LogPartial (py "What cour"))],
     Ok tt).
Proof.
  apply (@partial_transcript_is_only_logged sample_embeddings sample_index
           (JObj partial_fields) (JStr (py "A")) (py "What cour") JNull).
  - vm_compute. reflexivity.
  - discriminate.
Defined.

(** X17 on the final event, whose type is "ConversationText". *)
Lemma no_clear_without_barge_in_witness :
  sent_twilio (events (handle_text_message sample_embeddings sample_index
                                           final_event (JStr (py "A")))) = [].
Proof.
  apply (@no_clear_without_barge_in sample_embeddings sample_index
           final_event (JStr (py "A")) (JStr (py "ConversationText"))).
  - reflexivity.
  - reflexivity.
Defined.

(** X19 on an index whose entry has the number 42 as its answer. *)
Lemma non_string_answer_raises_witness :
  rag_retrieve sample_embeddings numeric_index (py "Pricing?") =
    ([EmbeddingsCreate (py "Pricing?"); IndexQuery [S754_zero false] 3],
     Raise TypeError) /\
  context_of sample_embeddings numeric_index (py "Pricing?") = NO_CONTEXT.
Proof.
  apply (@non_string_answer_raises sample_embeddings numeric_index
           (py "Pricing?") [S754_zero false]
           [ {| metadata := Some [(py "answer", JInt 42)] |} ]
           {| metadata := Some [(py "answer", JInt 42)] |}
           [(py "answer", JInt 42)] (JInt 42)).
  - reflexivity.
  - reflexivity.
  - left. reflexivity.
  - reflexivity.
  - reflexivity.
  - intros s. discriminate.
Defined.

(** ** The HTTP endpoints and the calling script *)

Lemma startswith_app s tail prefix :
  startswith s prefix = true -> startswith (s ++ tail) prefix = true.
Proof.
  revert s. induction prefix as [| p prefix IH]; intros s H.
  - destruct (s ++ tail); reflexivity.
  - destruct s as [| c s]; [discriminate H |].
    cbn [startswith app] in *. apply andb_prop in H as [Hc Hs].
    rewrite Hc, (IH s Hs). reflexivity.
Qed.

Lemma startswith_true s prefix :
  startswith s prefix = true -> exists post, s = prefix ++ post.
Proof.
  revert s. induction prefix as [| p prefix IH]; intros s H.
  - exists s. reflexivity.
  - destruct s as [| c s]; [discriminate H |].
    cbn [startswith] in H. apply andb_prop in H as [Hc Hs].
    apply N.eqb_eq in Hc. subst c.
    destruct (IH s Hs) as [post ->]. exists post. reflexivity.
Qed.

(** Where [old] does not occur, [replace] changes nothing. *)
Lemma replace_absent old new s :
  ~ substring old s -> replace_from old new 0 s = s.
Proof.
  induction s as [| c s IH]; intros Hno; [reflexivity |].
  cbn [replace_from].
  destruct (startswith (c :: s) old) eqn:Hs.
  - exfalso. destruct (startswith_true _ _ Hs) as [post Hp].
    apply Hno. exists [], post. exact Hp.
  - rewrite IH; [reflexivity |].
    intros (pre & post & Hp). apply Hno.
    exists (c :: pre), post. rewrite Hp. reflexivity.
Qed.

Lemma replace_miss old new c s :
  startswith (c :: s) old = false ->
  replace_from old new 0 (c :: s) = c :: replace_from old new 0 s.
Proof. intros H. cbn [replace_from]. rewrite H. reflexivity. Qed.

(** The scan passes the characters that differ from the first of [old]. *)
Lemma replace_past o old' new pre s :
  Forall (fun c => N.eqb o c = false) pre ->
  replace_from (o :: old') new 0 (pre ++ s) =
  pre ++ replace_from (o :: old') new 0 s.
Proof.
  induction 1 as [| c pre Hc _ IH]; [reflexivity |].
  cbn [app]. rewrite replace_miss.
  - rewrite IH. reflexivity.
  - cbn [startswith]. rewrite Hc. reflexivity.
Qed.

Lemma startswith_self old s : startswith (old ++ s) old = true.
Proof.
  induction old as [| o old IH]; [destruct s; reflexivity |].
  cbn [app startswith]. rewrite N.eqb_refl, IH. reflexivity.
Qed.

Lemma replace_skip old new pre s :
  replace_from old new (length pre) (pre ++ s) = replace_from old new 0 s.
Proof.
  induction pre as [| c pre IH]; [| exact IH].
  cbn [length app]. destruct s; reflexivity.
Qed.

(** An occurrence at the head is replaced and the scan resumes behind it. *)
Lemma replace_hit o old' new s :
  replace_from (o :: old') new 0 ((o :: old') ++ s) =
  new ++ replace_from (o :: old') new 0 s.
Proof.
  pose proof (startswith_self (o :: old') s) as Hs.
  cbn [app] in *. cbn [replace_from]. rewrite Hs.
  cbn [length Nat.sub]. rewrite Nat.sub_0_r, replace_skip. reflexivity.
Qed.

Lemma ws_url_https host :
  ~ substring (py "https://") host ->
  ~ substring (py "http://") host ->
  ws_url (py "https://" ++ host) = py "wss://" ++ host.
Proof.
  intros Hnos Hno. unfold ws_url.
  change (str_replace (py "https://" ++ host) (py "https://") (py "wss://"))
    with (replace_from (104%N :: py "ttps://") (py "wss://") 0
                       ((104%N :: py "ttps://") ++ host)).
  rewrite replace_hit.
  change (104%N :: py "ttps://") with (py "https://").
  rewrite (replace_absent (py "wss://") Hnos).
  change (str_replace (py "wss://" ++ host) (py "http://") (py "ws://"))
    with (replace_from (104%N :: py "ttp://") (py "ws://") 0
                       (py "wss://" ++ host)).
  rewrite replace_past by (repeat constructor).
  change (104%N :: py "ttp://") with (py "http://").
  rewrite (replace_absent (py "ws://") Hno). reflexivity.
Qed.

Lemma ws_url_http host :
  ~ substring (py "https://") host ->
  ~ substring (py "http://") host ->
  ws_url (py "http://" ++ host) = py "ws://" ++ host.
Proof.
  intros Hnos Hno. unfold ws_url.
  change (str_replace (py "http://" ++ host) (py "https://") (py "wss://"))
    with (replace_from (104%N :: py "ttps://") (py "wss://") 0
                       (104%N :: (py "ttp://" ++ host))).
  rewrite replace_miss by reflexivity.
  rewrite replace_past by (repeat constructor).
  change (104%N :: py "ttps://") with (py "https://").
  rewrite (replace_absent (py "wss://") Hnos).
  change (str_replace (104%N :: py "ttp://" ++ host) (py "http://") (py "ws://"))
    with (replace_from (104%N :: py "ttp://") (py "ws://") 0
                       ((104%N :: py "ttp://") ++ host)).
  rewrite replace_hit.
  change (104%N :: py "ttp://") with (py "http://").
  rewrite (replace_absent (py "ws://") Hno). reflexivity.
Qed.


Lemma pystr_eqb_true a b : pystr_eqb a b = true <-> a = b.
Proof.
  unfold pystr_eqb. destruct (list_eq_dec N.eq_dec a b); split; congruence.
Qed.

Section EndpointExtras.

Variable getenv : pystr -> option pystr.
Variable calls_create : call_request -> option pystr.

Let place := make_call getenv calls_create.
Let voice := voice_start getenv.

Lemma voice_start_twiml public_url direction :
  getenv (py "PUBLIC_URL") = Some public_url ->
  public_url <> [] ->
  exists greeting,
    voice direction =
    TwimlResponse [Say greeting; ConnectStream (ws_url public_url ++ py "/twilio")].
Proof.
  intros Henv Hne. unfold voice, voice_start. rewrite Henv.
  destruct public_url as [| c u]; [congruence |]. eauto.
Qed.

(** X20.  With PUBLIC_URL set, [make_call] asks Twilio for exactly one
    call, to the number of the request and from TWILIO_PHONE_NUMBER.  Its
    URL is PUBLIC_URL unchanged when that starts with "http", and
    PUBLIC_URL with "https://" in front otherwise, followed by "/voice";
    either way it starts with "http".  The reply carries the sid of the
    call, and an exception of Twilio is not caught. *)
Theorem make_call_requests_one_call public_url to_number :
  getenv (py "PUBLIC_URL") = Some public_url ->
  public_url <> [] ->
  exists request,
    fst (place to_number) = [request] /\
    call_to request = to_number /\
    call_from request = getenv (py "TWILIO_PHONE_NUMBER") /\
    (startswith public_url (py "http") = true ->
     call_url request = public_url ++ py "/voice") /\
    (startswith public_url (py "http") = false ->
     call_url request = (py "https://" ++ public_url) ++ py "/voice") /\
    startswith (call_url request) (py "http") = true /\
    snd (place to_number) =
      match calls_create request with
      | Some sid =>
          Ok (JObj [(py "message", JStr (py "Call started"));
                    (py "sid", JStr sid)])
      | None => Raise ServiceError
      end.
Proof.
  intros Henv Hne. unfold place, make_call. rewrite Henv.
  destruct public_url as [| c u]; [congruence |].
  destruct (startswith (c :: u) (py "http")) eqn:Hs.
  - eexists.
    split; [destruct (calls_create _); reflexivity |].
    cbn [call_to call_from call_url].
    split; [reflexivity |]. split; [reflexivity |].
    split; [reflexivity |]. split; [discriminate |].
    split; [apply startswith_app; exact Hs |].
    destruct (calls_create _); reflexivity.
  - eexists.
    split; [destruct (calls_create _); reflexivity |].
    cbn [call_to call_from call_url].
    split; [reflexivity |]. split; [reflexivity |].
    split; [discriminate |]. split; [reflexivity |].
    split; [reflexivity |].
    destruct (calls_create _); reflexivity.
Qed.

(** X21.  With PUBLIC_URL unset or empty, [make_call] places no call and
    answers with the error body, and [voice_start] answers 500 whatever
    the direction. *)
Theorem missing_public_url to_number direction :
  getenv (py "PUBLIC_URL") = None \/ getenv (py "PUBLIC_URL") = Some [] ->
  place to_number = ([], Ok (JObj [(py "error", JStr (py "Set PUBLIC_URL"))])) /\
  voice direction = PlainResponse 500 (py "PUBLIC_URL not configured").
Proof.
  unfold place, voice, make_call, voice_start.
  intros [-> | ->]; split; reflexivity.
Qed.

(** X22.  For a PUBLIC_URL made of a scheme and a rest in which neither
    "http://" nor "https://" occurs, [voice_start] connects the stream to
    the same rest under "wss://" for "https://" and under "ws://" for
    "http://", followed by "/twilio". *)
Theorem stream_url_scheme host direction :
  ~ substring (py "https://") host ->
  ~ substring (py "http://") host ->
  (getenv (py "PUBLIC_URL") = Some (py "https://" ++ host) ->
   exists greeting,
     voice direction =
     TwimlResponse [Say greeting;
                    ConnectStream ((py "wss://" ++ host) ++ py "/twilio")]) /\
  (getenv (py "PUBLIC_URL") = Some (py "http://" ++ host) ->
   exists greeting,
     voice direction =
     TwimlResponse [Say greeting;
                    ConnectStream ((py "ws://" ++ host) ++ py "/twilio")]).
Proof.
  intros Hnos Hno. split; intros Henv.
  - destruct (voice_start_twiml direction Henv ltac:(discriminate))
      as [greeting Hv].
    exists greeting. rewrite Hv, (ws_url_https Hnos Hno). reflexivity.
  - destruct (voice_start_twiml direction Henv ltac:(discriminate))
      as [greeting Hv].
    exists greeting. rewrite Hv, (ws_url_http Hnos Hno). reflexivity.
Qed.


End EndpointExtras.

(** X24.  Once a number is known, [trigger_call] returns normally whatever
    the request does, and posts exactly once, to the make-call URL, the
    number typed when TO_NUMBER is still the placeholder and TO_NUMBER
    otherwise; it asks for a number in the first case only. *)
Theorem trigger_call_posts_once TO_NUMBER number post :
  let target := if pystr_eqb TO_NUMBER PLACEHOLDER_NUMBER
                then number else TO_NUMBER in
  snd (trigger_call TO_NUMBER (Some number) post) = Ok tt /\
  posts (fst (trigger_call TO_NUMBER (Some number) post)) =
    [(MAKE_CALL_URL, JObj [(py "to_number", JStr target)])] /\
  (In Asked (fst (trigger_call TO_NUMBER (Some number) post)) <->
   TO_NUMBER = PLACEHOLDER_NUMBER).
Proof.
  assert (Hposts : forall n,
             posts (send_request post n) =
             [(MAKE_CALL_URL, JObj [(py "to_number", JStr n)])]).
  { intros n. unfold send_request.
    destruct (post MAKE_CALL_URL _) as [reply |]; [| reflexivity].
    destruct (Z.eqb (status_code reply) 200); [| reflexivity].
    destruct (reply_json reply); reflexivity. }
  assert (Hasked : forall n, ~ In Asked (send_request post n)).
  { intros n. unfold send_request.
    destruct (post MAKE_CALL_URL _) as [reply |];
      [destruct (Z.eqb (status_code reply) 200);
       [destruct (reply_json reply) |] |];
      cbn [app In]; intros H;
      repeat (destruct H as [H | H]; [discriminate H |]); exact H. }
  unfold trigger_call.
  destruct (pystr_eqb TO_NUMBER PLACEHOLDER_NUMBER) eqn:Heq; cbn [fst snd].
  - repeat split.
    + exact (Hposts number).
    + intros _. apply pystr_eqb_true. exact Heq.
    + intros _. left. reflexivity.
  - repeat split.
    + exact (Hposts TO_NUMBER).
    + intros H. exfalso. exact (Hasked _ H).
    + intros H. apply pystr_eqb_true in H. congruence.
Qed.

(** *** Runs in sample environments *)

Lemma substring_occurs old s : substring old s -> occurs old s = true.
Proof.
  intros (pre & post & ->). unfold occurs. apply existsb_exists.
  exists (length pre). split.
  - apply in_seq. rewrite !length_app. lia.
  - rewrite skipn_app, skipn_all, Nat.sub_diag. cbn [app skipn].
    apply startswith_self.
Qed.

Lemma sample_host_no_https : ~ substring (py "https://") sample_host.
Proof. intros H. apply substring_occurs in H. vm_compute in H. discriminate H. Qed.

Lemma sample_host_no_http : ~ substring (py "http://") sample_host.
Proof. intros H. apply substring_occurs in H. vm_compute in H. discriminate H. Qed.

(** X20 with PUBLIC_URL = https://relay.example.com, which is used as it
    is. *)
Lemma make_call_requests_one_call_witness :
  exists request,
    fst (make_call env_https sample_calls_create (py "+15550123")) = [request] /\
    call_to request = py "+15550123" /\
    call_from request = Some (py "+15550100") /\
    call_url request = py "https://relay.example.com/voice" /\
    snd (make_call env_https sample_calls_create (py "+15550123")) =
      Ok (JObj [(py "message", JStr (py "Call started"));
                (py "sid", JStr (py "CA1"))]).
Proof.
  destruct (@make_call_requests_one_call env_https sample_calls_create
              (py "https://relay.example.com") (py "+15550123")
              eq_refl ltac:(discriminate))
    as (request & Hone & Hto & Hfrom & Hsame & _ & _ & Hreply).
  exists request.
  split; [exact Hone |]. split; [exact Hto |]. split; [exact Hfrom |].
  split; [exact (Hsame eq_refl) | exact Hreply].
Defined.

(** X21 in an empty environment. *)
Lemma missing_public_url_witness :
  make_call env_empty sample_calls_create (py "+15550123")
    = ([], Ok (JObj [(py "error", JStr (py "Set PUBLIC_URL"))])) /\
  voice_start env_empty (Some (py "inbound"))
    = PlainResponse 500 (py "PUBLIC_URL not configured").
Proof.
  apply (@missing_public_url env_empty sample_calls_create (py "+15550123")
           (Some (py "inbound"))).
  left. reflexivity.
Defined.

(** X22 with PUBLIC_URL = http://relay.example.com. *)
Lemma stream_url_scheme_witness :
  exists greeting,
    voice_start env_http (Some (py "inbound")) =
    TwimlResponse [Say greeting;
                   ConnectStream ((py "ws://" ++ sample_host) ++ py "/twilio")].
Proof.
  apply (proj2 (@stream_url_scheme env_http sample_host (Some (py "inbound"))
                  sample_host_no_https sample_host_no_http)).
  reflexivity.
Defined.


(** ** Exceptions of the handler in [sts_receiver] *)

(** X25.  An exception raised while a text message is handled is not
    caught in [sts_receiver]: the loop ends with it after the message was
    printed and the handler's effects so far, and no later message is
    handled. *)
Theorem handler_exception_ends_agent_loop
    (embeddings_create : pystr -> option vector)
    (index_query : vector -> nat -> option (list Match))
    (json_loads : pystr -> option json) (b64encode : list byte -> pystr)
    sid before s decoded e rest :
  outcome (sts_receiver embeddings_create index_query json_loads b64encode
                        sid before) = Ok tt ->
  json_loads s = Some decoded ->
  outcome (handle_text_message embeddings_create index_query decoded sid)
    = Raise e ->
  sts_receiver embeddings_create index_query json_loads b64encode sid
               (before ++ Text s :: rest) =
    (events (sts_receiver embeddings_create index_query json_loads b64encode
                          sid before)
       ++ Print (LogDeepgram decoded)
       :: events (handle_text_message embeddings_create index_query decoded sid),
     Raise e).
Proof.
  intros Hok Hload Hraise.
  rewrite receive_app, (bind_ok _ _ Hok).
  cbn [sts_receiver sts_receive]. rewrite Hload.
  unfold lift. change (([] : list event, Ok decoded)) with (ret decoded).
  rewrite bind_ret_l.
  destruct (handle_text_message embeddings_create index_query decoded sid)
    as [evs r] eqn:Hh.
  cbn [outcome snd] in Hraise. subst r.
  unfold emit, bind. cbn [events outcome fst snd app]. reflexivity.
Qed.

(** X25 on an audio frame, a JSON list, an audio frame. *)
Lemma handler_exception_ends_agent_loop_witness :
  sts_receiver sample_embeddings sample_index list_loads sample_b64encode
               (JStr (py "A"))
               ([Binary (zeros 3)] ++ Text (py "[]") :: [Binary (zeros 3)]) =
    (events (sts_receiver sample_embeddings sample_index list_loads
                          sample_b64encode (JStr (py "A")) [Binary (zeros 3)])
       ++ Print (LogDeepgram (JArr []))
       :: events (handle_text_message sample_embeddings sample_index (JArr [])
                                      (JStr (py "A"))),
     Raise AttributeError).
Proof.
  apply (@handler_exception_ends_agent_loop sample_embeddings sample_index
           list_loads sample_b64encode (JStr (py "A")) [Binary (zeros 3)]
           (py "[]") (JArr []) AttributeError [Binary (zeros 3)]).
  - reflexivity.
  - reflexivity.
  - reflexivity.
Defined.
